(** * DCPumpControllerNumPad.ino: a shallow embedding of the pump firmware

    The firmware targets the Arduino Uno (ATmega328): [int] is 16 bits,
    [unsigned long] is 32 bits, [byte] is 8 bits, [float] and [double] are
    both IEEE-754 binary32, a data pointer is 2 bytes, and multi-byte
    objects are little-endian.  Every number below is a [Z] with the
    wrap-around written out; floats are [spec_float] values computed with
    the binary32 parameters.

    Embedded: [setup], [loop] with its run timer, [MenuUI], the screens
    [SetRate], [SetDiameter], [SetInfWith] and [SetVolume], [LCDinput],
    [Units2Pct], [DiaConv], [setTargetTime] and [sizeInt].  The serial
    command block of [loop] (lines 244-427) and the statements that start a
    run (lines 225-241) are inside block comments: they are no part of the
    program and are not embedded.  The display and the delays have no effect
    on the state and are left out, and so are the debugging prints. *)

From Stdlib Require Import ZArith List Ascii String Bool Lia.
From Stdlib Require Import Floats.SpecFloat.
Import ListNotations.
Local Open Scope Z_scope.

(** ** binary32 arithmetic *)

Module F32.

Definition prec : Z := 24.
Definition emax : Z := 128.

Definition float : Type := spec_float.

Definition zero : float := S754_zero false.

(** Conversion of an integer (an [int], [long] or [bool] operand). *)
Definition of_Z (z : Z) : float := binary_normalize prec emax z 0 false.

Definition of_bool (b : bool) : float := of_Z (if b then 1 else 0).

Definition add : float -> float -> float := SFadd prec emax.
Definition sub : float -> float -> float := SFsub prec emax.
Definition mul : float -> float -> float := SFmul prec emax.
Definition div : float -> float -> float := SFdiv prec emax.

(** The decimal literal [n / 10^k], e.g. [dec 92849 4] for [9.2849].  Both
    operands are exact in binary32 (below [2^24]) and the division rounds
    to nearest, so the result is the literal rounded to nearest. *)
Definition dec (n k : Z) : float := div (of_Z n) (of_Z (10 ^ k)).

Definition ltb : float -> float -> bool := SFltb.
Definition gtb (a b : float) : bool := SFltb b a.
Definition geb (a b : float) : bool := SFleb b a.
(** [a != b]: true as soon as one side is a NaN. *)
Definition neqb (a b : float) : bool := negb (SFeqb a b).

(** Conversion to an integer type drops the fractional part.  C++ leaves
    the conversion of a NaN or an infinity undefined; they give 0 here. *)
Definition trunc (f : float) : Z :=
  match f with
  | S754_finite s m e =>
      let v := if 0 <=? e then Z.pos m * 2 ^ e else Z.pos m / 2 ^ (- e) in
      if s then - v else v
  | _ => 0
  end.

(** The 32-bit pattern of a float, as [EEPROM.put] stores it. *)
Definition sign_bit (s : bool) : Z := if s then 2 ^ 31 else 0.

Definition bits (f : float) : Z :=
  match f with
  | S754_zero s => sign_bit s
  | S754_infinity s => sign_bit s + 255 * 2 ^ 23
  | S754_nan => 255 * 2 ^ 23 + 2 ^ 22
  | S754_finite s m e =>
      sign_bit s +
      (if Z.pos m <? 2 ^ 23 then Z.pos m
       else (e + 150) * 2 ^ 23 + (Z.pos m - 2 ^ 23))
  end.

Definition of_bits (b : Z) : float :=
  let s := Z.testbit b 31 in
  let E := (b / 2 ^ 23) mod 256 in
  let m := b mod 2 ^ 23 in
  if E =? 255 then (if m =? 0 then S754_infinity s else S754_nan)
  else if E =? 0 then
    match m with Z.pos p => S754_finite s p (-149) | _ => S754_zero s end
  else
    match m + 2 ^ 23 with
    | Z.pos p => S754_finite s p (E - 150)
    | _ => S754_nan
    end.

End F32.

Abbreviation float := F32.float.

(** ** Machine integers and bytes *)

Definition wrap_byte (z : Z) : Z := z mod 256.
Definition wrap_int (z : Z) : Z := (z + 32768) mod 65536 - 32768.
Definition wrap_ulong (z : Z) : Z := z mod 2 ^ 32.

(** [float] to [int] and to [unsigned long]. *)
Definition f2int (f : float) : Z := wrap_int (F32.trunc f).
Definition f2ulong (f : float) : Z := wrap_ulong (F32.trunc f).

Definition code (c : ascii) : Z := Z.of_N (N_of_ascii c).
Definition chr (z : Z) : ascii := ascii_of_N (Z.to_N (wrap_byte z)).

Definition isDigit (c : ascii) : bool := (48 <=? code c) && (code c <=? 57).

Definition NO_KEY : ascii := zero.

(** Little-endian object representations. *)
Definition bytes_of_int (z : Z) : list Z := [z mod 256; (z / 256) mod 256].

Definition int_of_bytes (lo hi : Z) : Z := wrap_int (lo + 256 * hi).

Definition bytes_of_float (f : float) : list Z :=
  let b := F32.bits f in
  [b mod 256; (b / 2 ^ 8) mod 256; (b / 2 ^ 16) mod 256; (b / 2 ^ 24) mod 256].

Definition float_of_bytes (b0 b1 b2 b3 : Z) : float :=
  F32.of_bits (b0 + 2 ^ 8 * b1 + 2 ^ 16 * b2 + 2 ^ 24 * b3).

(** Arrays are maps from the index to the cell. *)
Definition upd {A : Type} (f : Z -> A) (i : Z) (v : A) : Z -> A :=
  fun j => if j =? i then v else f j.

Definition upd2 {A : Type} (f : Z -> Z -> A) (i j : Z) (v : A) : Z -> Z -> A :=
  fun i' j' => if (i' =? i) && (j' =? j) then v else f i' j'.

(** The integers [a, a+1, ..., b-1] of a [for (i = a; i < b; i++)] loop. *)
Definition range (a b : Z) : list Z :=
  map (fun k => a + Z.of_nat k) (seq 0 (Z.to_nat (b - a))).

(** ** Build-time settings *)

Definition nShields : Z := 1.
Definition nMotorsPerShield : Z := 2.
Definition endMessage : ascii := "."%char.
Definition motorOn : bool := false.
Definition eeAddress : Z := 0.
Definition maxMessageLength : Z := 9.

(** Where [motorStatus[i][j][k]] lies, counted in [int]s from the start of
    the array.  The array is declared with the extents [nShields],
    [nMotorsPerShield] and 1 and is laid out row by row without gaps, so
    that [motorStatus[i][j][1]] and [motorStatus[i][j + 1][0]] are one and
    the same [int]. *)
Definition motorStatus_cell (i j k : Z) : Z := (i * nMotorsPerShield + j) * 1 + k.

(** ** Global state *)

(** The three global arrays, with the extents of their declarations
    [int motorStatus[nShields][nMotorsPerShield][1]], [int flowStatus[2]] and
    [float floatVar[2]]. *)
Inductive array_name : Type := MotorStatus | FlowStatus | FloatVar.

Definition declared_extents (a : array_name) : list Z :=
  match a with
  | MotorStatus => [nShields; nMotorsPerShield; 1]
  | FlowStatus => [2]
  | FloatVar => [2]
  end.

(** One subscripted access [a[i]...] of the running program. *)
Record access : Type := Acc { acc_array : array_name; acc_write : bool; acc_index : list Z }.

Fixpoint within (idx ext : list Z) : bool :=
  match idx, ext with
  | [], [] => true
  | i :: idx', n :: ext' => (0 <=? i) && (i <? n) && within idx' ext'
  | _, _ => false
  end.

Definition in_bounds (a : access) : bool :=
  within (acc_index a) (declared_extents (acc_array a)).

(** What a motor object of the shield library was last told. *)
Inductive run_cmd : Type := FORWARD | BACKWARD | RELEASE.

(** What the program sends to the serial port.  The prints of [setup],
    [LCDhome] and [LCDinput] report values for debugging; they answer
    nothing and are left out. *)
Inductive serial_item : Type :=
| PStr (s : string)
| PChr (c : ascii)
| PNum (n : Z)
| PLn.

Record timers : Type := mkTimers {
  startTime : Z;
  elapsedTime : Z;
  targetTime : Z;
  timeRemaining : Z;
  timeCounter : bool
}.

(** The program indexes its arrays beyond the declared extents (the
    comments next to the declarations document a [speed] and a [state] cell
    per motor and three cells for [flowStatus] and [floatVar]).  Each array
    is therefore a map defined on every index, and [trace] records which
    indices were used; [in_bounds] compares them with the declarations.
    [motorStatus] is the memory at the array, one [int] per
    [motorStatus_cell]: the cells 0 and 1 are the array itself, the others
    lie behind it.  [EEPROM.get] and [EEPROM.put] move the declared object
    only.  [serial_in] holds the characters the serial port has received
    and the program has not read. *)
Record state : Type := mkState {
  motorStatus : Z -> Z;
  flowStatus : Z -> Z;
  floatVar : Z -> float;
  volFloat : Z;
  tm : timers;
  currentShield : Z;
  currentMotor : Z;
  currentSpeed : Z;
  eeprom : Z -> Z;
  motor_speed : Z -> Z -> Z;
  motor_run : Z -> Z -> run_cmd;
  serial_in : list ascii;
  serial_out : list serial_item;
  trace : list access
}.

Definition set_motorStatus (v : Z -> Z) (s : state) : state :=
  mkState v (flowStatus s) (floatVar s) (volFloat s) (tm s) (currentShield s)
    (currentMotor s) (currentSpeed s) (eeprom s) (motor_speed s) (motor_run s)
    (serial_in s) (serial_out s) (trace s).
Definition set_flowStatus (v : Z -> Z) (s : state) : state :=
  mkState (motorStatus s) v (floatVar s) (volFloat s) (tm s) (currentShield s)
    (currentMotor s) (currentSpeed s) (eeprom s) (motor_speed s) (motor_run s)
    (serial_in s) (serial_out s) (trace s).
Definition set_floatVar (v : Z -> float) (s : state) : state :=
  mkState (motorStatus s) (flowStatus s) v (volFloat s) (tm s) (currentShield s)
    (currentMotor s) (currentSpeed s) (eeprom s) (motor_speed s) (motor_run s)
    (serial_in s) (serial_out s) (trace s).
Definition set_volFloat (v : Z) (s : state) : state :=
  mkState (motorStatus s) (flowStatus s) (floatVar s) v (tm s) (currentShield s)
    (currentMotor s) (currentSpeed s) (eeprom s) (motor_speed s) (motor_run s)
    (serial_in s) (serial_out s) (trace s).
Definition set_tm (v : timers) (s : state) : state :=
  mkState (motorStatus s) (flowStatus s) (floatVar s) (volFloat s) v (currentShield s)
    (currentMotor s) (currentSpeed s) (eeprom s) (motor_speed s) (motor_run s)
    (serial_in s) (serial_out s) (trace s).
Definition set_current (sh mo sp : Z) (s : state) : state :=
  mkState (motorStatus s) (flowStatus s) (floatVar s) (volFloat s) (tm s) sh
    mo sp (eeprom s) (motor_speed s) (motor_run s)
    (serial_in s) (serial_out s) (trace s).
Definition set_eeprom (v : Z -> Z) (s : state) : state :=
  mkState (motorStatus s) (flowStatus s) (floatVar s) (volFloat s) (tm s) (currentShield s)
    (currentMotor s) (currentSpeed s) v (motor_speed s) (motor_run s)
    (serial_in s) (serial_out s) (trace s).
Definition set_motor_speed (v : Z -> Z -> Z) (s : state) : state :=
  mkState (motorStatus s) (flowStatus s) (floatVar s) (volFloat s) (tm s) (currentShield s)
    (currentMotor s) (currentSpeed s) (eeprom s) v (motor_run s)
    (serial_in s) (serial_out s) (trace s).
Definition set_motor_run (v : Z -> Z -> run_cmd) (s : state) : state :=
  mkState (motorStatus s) (flowStatus s) (floatVar s) (volFloat s) (tm s) (currentShield s)
    (currentMotor s) (currentSpeed s) (eeprom s) (motor_speed s) v
    (serial_in s) (serial_out s) (trace s).
Definition set_serial_out (v : list serial_item) (s : state) : state :=
  mkState (motorStatus s) (flowStatus s) (floatVar s) (volFloat s) (tm s) (currentShield s)
    (currentMotor s) (currentSpeed s) (eeprom s) (motor_speed s) (motor_run s)
    (serial_in s) v (trace s).
Definition set_trace (v : list access) (s : state) : state :=
  mkState (motorStatus s) (flowStatus s) (floatVar s) (volFloat s) (tm s) (currentShield s)
    (currentMotor s) (currentSpeed s) (eeprom s) (motor_speed s) (motor_run s)
    (serial_in s) (serial_out s) v.

(** ** The state monad of the firmware *)

Definition M (A : Type) : Type := state -> A * state.

Definition ret {A : Type} (a : A) : M A := fun s => (a, s).

Definition bind {A B : Type} (m : M A) (k : A -> M B) : M B :=
  fun s => let (a, s') := m s in k a s'.

Declare Scope fw_scope.
Delimit Scope fw_scope with fw.
Notation "x <- m ;; k" := (bind m (fun x => k))
  (at level 61, m at next level, right associativity) : fw_scope.
Notation "' p <- m ;; k" := (bind m (fun x => let 'p := x in k))
  (at level 61, p strict pattern, m at next level, right associativity) : fw_scope.
Notation "m ;;; k" := (bind m (fun _ => k))
  (at level 61, right associativity) : fw_scope.
Local Open Scope fw_scope.

Definition get {A : Type} (proj : state -> A) : M A := fun s => (proj s, s).
Definition modify (f : state -> state) : M unit := fun s => (tt, f s).
Definition exec {A : Type} (m : M A) (s : state) : state := snd (m s).
Definition when (b : bool) (m : M unit) : M unit := if b then m else ret tt.

Fixpoint for_each {A : Type} (l : list A) (body : A -> M unit) : M unit :=
  match l with
  | [] => ret tt
  | x :: l' => body x ;;; for_each l' body
  end.

Definition log (a : array_name) (w : bool) (idx : list Z) : M unit :=
  modify (fun s => set_trace (trace s ++ [Acc a w idx]) s).

(** Subscripted reads and writes of the three arrays. *)
Definition rd_motorStatus (i j k : Z) : M Z :=
  log MotorStatus false [i; j; k] ;;; get (fun s => motorStatus s (motorStatus_cell i j k)).
Definition wr_motorStatus (i j k v : Z) : M unit :=
  log MotorStatus true [i; j; k] ;;;
  modify (fun s => set_motorStatus (upd (motorStatus s) (motorStatus_cell i j k) v) s).
Definition rd_flowStatus (i : Z) : M Z :=
  log FlowStatus false [i] ;;; get (fun s => flowStatus s i).
Definition wr_flowStatus (i v : Z) : M unit :=
  log FlowStatus true [i] ;;; modify (fun s => set_flowStatus (upd (flowStatus s) i v) s).
Definition rd_floatVar (i : Z) : M float :=
  log FloatVar false [i] ;;; get (fun s => floatVar s i).
Definition wr_floatVar (i : Z) (v : float) : M unit :=
  log FloatVar true [i] ;;; modify (fun s => set_floatVar (upd (floatVar s) i v) s).

(** The motor objects: [setSpeed] takes a [uint8_t]. *)
Definition setSpeed (i j v : Z) : M unit :=
  modify (fun s => set_motor_speed (upd2 (motor_speed s) i j (wrap_byte v)) s).
Definition run (i j : Z) (c : run_cmd) : M unit :=
  modify (fun s => set_motor_run (upd2 (motor_run s) i j c) s).

(** ** The EEPROM, byte by byte *)

Fixpoint store_bytes (ee : Z -> Z) (addr : Z) (bs : list Z) : Z -> Z :=
  match bs with
  | [] => ee
  | b :: bs' => store_bytes (upd ee addr b) (addr + 1) bs'
  end.

(** The bytes of the declared [motorStatus] object, row-major. *)
Definition motorStatus_bytes (m : Z -> Z) : list Z :=
  flat_map (fun i => flat_map (fun j => bytes_of_int (m (motorStatus_cell i j 0)))
                       (range 0 nMotorsPerShield)) (range 0 nShields).

(** [EEPROM.get] fills the [nShields * nMotorsPerShield * 1] cells of the
    object, two bytes each. *)
Definition motorStatus_of_eeprom (ee : Z -> Z) (addr : Z) (m : Z -> Z) : Z -> Z :=
  fun c =>
    if (0 <=? c) && (c <? nShields * nMotorsPerShield * 1)
    then int_of_bytes (ee (addr + 2 * c)) (ee (addr + 2 * c + 1))
    else m c.

Definition EEPROM_put_motorStatus (addr : Z) : M unit :=
  modify (fun s => set_eeprom (store_bytes (eeprom s) addr (motorStatus_bytes (motorStatus s))) s).
Definition EEPROM_get_motorStatus (addr : Z) : M unit :=
  modify (fun s => set_motorStatus (motorStatus_of_eeprom (eeprom s) addr (motorStatus s)) s).

Definition EEPROM_put_floatVar (addr : Z) : M unit :=
  modify (fun s => set_eeprom
    (store_bytes (eeprom s) addr
       (bytes_of_float (floatVar s 0) ++ bytes_of_float (floatVar s 1))) s).
Definition EEPROM_get_floatVar (addr : Z) : M unit :=
  modify (fun s =>
    let ee := eeprom s in
    let f0 := float_of_bytes (ee addr) (ee (addr + 1)) (ee (addr + 2)) (ee (addr + 3)) in
    let f1 := float_of_bytes (ee (addr + 4)) (ee (addr + 5)) (ee (addr + 6)) (ee (addr + 7)) in
    set_floatVar (upd (upd (floatVar s) 0 f0) 1 f1) s).

Definition EEPROM_put_flowStatus (addr : Z) : M unit :=
  modify (fun s => set_eeprom
    (store_bytes (eeprom s) addr
       (bytes_of_int (flowStatus s 0) ++ bytes_of_int (flowStatus s 1))) s).
Definition EEPROM_get_flowStatus (addr : Z) : M unit :=
  modify (fun s =>
    let ee := eeprom s in
    let v0 := int_of_bytes (ee addr) (ee (addr + 1)) in
    let v1 := int_of_bytes (ee (addr + 2)) (ee (addr + 3)) in
    set_flowStatus (upd (upd (flowStatus s) 0 v0) 1 v1) s).

Definition EEPROM_put_volFloat (addr : Z) : M unit :=
  modify (fun s => set_eeprom (store_bytes (eeprom s) addr (bytes_of_int (volFloat s))) s).
Definition EEPROM_get_volFloat (addr : Z) : M unit :=
  modify (fun s => set_volFloat (int_of_bytes (eeprom s addr) (eeprom s (addr + 1))) s).

(** ** setup *)

(** RAM after reset: every global is zero, the motors are released and
    nothing has been sent or received; the EEPROM holds what it held at
    power-off. *)
Definition power_on (ee : Z -> Z) : state :=
  mkState (fun _ => 0) (fun _ => 0) (fun _ => F32.zero) 0
    (mkTimers 0 0 0 0 false) 0 0 0 ee (fun _ _ => 0) (fun _ _ => RELEASE) [] [] [].

(** An EEPROM that was never written reads 0xFF everywhere. *)
Definition erased_eeprom : Z -> Z := fun _ => 255.

(** [setup()], block by block.  [NULL] is the integer constant 0.  The
    display calls and the prints of [LCDhome] and of the greeting only
    produce output and are left out. *)
Definition setup_motors : M unit :=
  EEPROM_get_motorStatus eeAddress ;;;
  for_each (range 0 nShields) (fun i =>
    for_each (range 0 nMotorsPerShield) (fun j =>
      v <- rd_motorStatus i j 0 ;; setSpeed i j v)).

Definition setup_floatVar : M unit :=
  EEPROM_get_floatVar 1 ;;;
  f0 <- rd_floatVar 0 ;;
  when (F32.neqb f0 (F32.of_Z 0))
    (wr_floatVar 0 (F32.dec 3700 2) ;;;
     wr_floatVar 1 (F32.dec 1450 2) ;;;
     wr_floatVar 2 (F32.dec 100 2) ;;;
     EEPROM_put_floatVar 1).

Definition setup_flowStatus : M unit :=
  EEPROM_get_flowStatus 2 ;;;
  u0 <- rd_flowStatus 0 ;;
  when (negb (u0 =? 0))
    (wr_flowStatus 0 0 ;;;
     wr_flowStatus 1 0 ;;;
     wr_flowStatus 2 0 ;;;
     EEPROM_put_flowStatus 2).

Definition setup_volFloat : M unit :=
  EEPROM_get_volFloat 3 ;;;
  v <- get volFloat ;;
  when (negb (v =? 0))
    (modify (set_volFloat 0) ;;; EEPROM_put_volFloat 3).

Definition setup : M unit :=
  setup_motors ;;; setup_floatVar ;;; setup_flowStatus ;;; setup_volFloat.

(** ** loop: the run timer (lines 201-223) *)

(** The body of [if (elapsedTime >= targetTime)]. *)
Definition stop_expired_run : M unit :=
  for_each (range 0 nShields) (fun i =>
    for_each (range 0 nMotorsPerShield) (fun j =>
      wr_motorStatus i j 1 0 ;;;
      EEPROM_put_motorStatus eeAddress ;;;
      run i j RELEASE)) ;;;
  modify (fun s =>
    set_tm (mkTimers (startTime (tm s)) 0 0 (timeRemaining (tm s)) false) s).

(** [now] is what [millis()] returns. *)
Definition loop_autostop (now : Z) : M unit :=
  t <- get tm ;;
  when (timeCounter t)
    (let elapsed := wrap_ulong (now - startTime t) in
     let remaining := wrap_ulong (targetTime t - elapsed) in
     modify (set_tm (mkTimers (startTime t) elapsed (targetTime t) remaining true)) ;;;
     when (targetTime t <=? elapsed) stop_expired_run).

(** The statements after the timer that would start a run (lines 225-241)
    and the serial command block (lines 244-427) are inside block comments:
    the program never reads the serial port and never sets [timeCounter]. *)

(** ** Local buffers *)

(** A local [char] array: [stored] written from index 0 over what the
    stack held. *)
Fixpoint fill (junk : Z -> ascii) (at_ : Z) (stored : list ascii) : Z -> ascii :=
  match stored with
  | [] => junk
  | c :: rest => fill (upd junk at_ c) (at_ + 1) rest
  end.

(** ** setTargetTime *)

(** [volFloat/100] is a division of two [int]s; [60000] is a [long]. *)
Definition setTargetTime : M unit :=
  v <- get volFloat ;;
  let tempVal := F32.of_Z (Z.quot v 100) in
  u <- rd_flowStatus 0 ;;
  tempVal <-
    (if negb (u =? 0) then
       let t := F32.mul tempVal (F32.of_Z 1000) in
       u' <- rd_flowStatus 0 ;;
       ret (if u' =? 1 then F32.div t (F32.of_Z 60) else t)
     else ret tempVal) ;;
  r <- rd_floatVar 0 ;;
  let target := f2ulong (F32.mul (F32.div tempVal r) (F32.of_Z 60000)) in
  modify (fun s =>
    set_tm (mkTimers (startTime (tm s)) (elapsedTime (tm s)) target
              (timeRemaining (tm s)) (timeCounter (tm s))) s).

(** ** Units2Pct *)

(** [a > t > b] as C++ reads it: [(a > t) > b], the inner result being 0 or 1. *)
Definition chained_gt (a t b : float) : bool :=
  F32.gtb (F32.of_bool (F32.gtb a t)) b.

(** The unit conversion at the top of [Units2Pct]. *)
Definition normalized (unitVal : Z) (r : float) : float :=
  if unitVal =? 1 then F32.mul r (F32.dec 6 2)
  else if unitVal =? 2 then F32.mul r (F32.dec 1 3)
  else r.

(** The result is the content of the local array [structMotor], that is
    [{motorVal, gearRatio}].  [floatVar[0]] and [floatVar[2]] are read once
    here for all their occurrences in the conditions: nothing is written
    before a branch is chosen.  The body uses the first parameter only. *)
Definition Units2Pct (unitVal rateVal rateInt decimalPos : Z) : M (list Z) :=
  r <- rd_floatVar 0 ;;
  let tempVal := normalized unitVal r in
  s <- rd_floatVar 2 ;;
  let by_scale (c : float) := F32.mul c s in
  let by_rate (c : float) := F32.mul c r in
  let hundred := F32.of_Z 100 in
  let line (off slope : float) :=
    f2int (F32.mul (F32.div (F32.sub tempVal (by_scale off)) (by_scale slope)) hundred) in
  let line_unparenthesised (off slope : float) :=
    f2int (F32.mul (F32.sub tempVal (F32.div (by_scale off) (by_scale slope))) hundred) in
  if chained_gt (by_scale (F32.of_Z 37)) tempVal (by_scale (F32.of_Z 16)) then
    ret [line (F32.dec 92849 4) (F32.dec 27855 3); 1]
  else if chained_gt (by_scale (F32.of_Z 16)) tempVal (by_scale (F32.of_Z 9)) then
    ret [line (F32.dec 41078 4) (F32.dec 12323 3); 2]
  else if chained_gt (by_scale (F32.of_Z 9)) tempVal (by_scale (F32.of_Z 3)) then
    ret [line (F32.dec 24206 4) (F32.dec 72617 4); 3]
  else if chained_gt (by_scale (F32.of_Z 3)) tempVal (by_scale (F32.of_Z 2)) then
    ret [line (F32.dec 8456 4) (F32.dec 25367 4); 4]
  else if chained_gt (by_scale (F32.of_Z 2)) tempVal (by_scale (F32.dec 6 1)) then
    ret [line (F32.dec 5366 4) (F32.dec 16099 4); 5]
  else if chained_gt (by_scale (F32.dec 6 1)) tempVal (by_scale (F32.dec 3 1)) then
    ret [line (F32.dec 1704 4) (F32.dec 5112 4); 6]
  else if chained_gt (by_rate (F32.dec 3 1)) tempVal (by_scale (F32.dec 1 1)) then
    ret [line (F32.dec 956 4) (F32.dec 2867 4); 7]
  else if chained_gt (by_rate (F32.dec 1 1)) tempVal (by_scale (F32.dec 8 2)) then
    ret [line_unparenthesised (F32.dec 331 4) (F32.dec 992 4); 8]
  else if chained_gt (by_rate (F32.dec 8 2)) tempVal (by_scale (F32.dec 25 3)) then
    ret [line (F32.dec 21 3) (F32.dec 629 4); 9]
  else if chained_gt (by_rate (F32.dec 25 3)) tempVal (by_scale (F32.dec 6 3)) then
    ret [line_unparenthesised (F32.dec 66 4) (F32.dec 199 4); 10]
  else if F32.gtb tempVal (by_scale (F32.of_Z 37)) then
    wr_floatVar 0 (by_scale (F32.dec 27855 3)) ;;;
    ret [255; -1]
  else if F32.ltb tempVal (by_scale (F32.dec 66 4)) then
    ret [64; -2]
  else ret [0; 0].

(** The two entries of the array that [Units2Pct] builds. *)
Definition motorVal_of (structMotor : list Z) : Z := nth 0 structMotor 0.
Definition gearRatio_of (structMotor : list Z) : Z := nth 1 structMotor 0.

(** ** LCDinput: the decimal value editor *)

(** The caller's variables that [LCDinput] works on through its pointer
    arguments, and every subscript applied to [printVal] so far (with
    [true] for a write). *)
Record edit : Type := mkEdit {
  decimalPos : Z;
  printVal : Z -> ascii;
  printInt : Z;
  cursorPos : Z;
  accesses : list (bool * Z)
}.

Definition E (A : Type) : Type := edit -> A * edit.

Definition rd_printVal (i : Z) : E ascii :=
  fun e => (printVal e i,
            mkEdit (decimalPos e) (printVal e) (printInt e) (cursorPos e)
              (accesses e ++ [(false, i)])).

Definition wr_printVal (i : Z) (c : ascii) (e : edit) : edit :=
  mkEdit (decimalPos e) (upd (printVal e) i c) (printInt e) (cursorPos e)
    (accesses e ++ [(true, i)]).

Definition set_decimalPos (v : Z) (e : edit) : edit :=
  mkEdit v (printVal e) (printInt e) (cursorPos e) (accesses e).
Definition set_printInt (v : Z) (e : edit) : edit :=
  mkEdit (decimalPos e) (printVal e) v (cursorPos e) (accesses e).
Definition set_cursorPos (v : Z) (e : edit) : edit :=
  mkEdit (decimalPos e) (printVal e) (printInt e) v (accesses e).

(** [printVal[dst] = printVal[src]]. *)
Definition copy_char (dst src : Z) (e : edit) : edit :=
  let (c, e') := rd_printVal src e in wr_printVal dst c e'.

(** [sizeof(printVal) / sizeof(printVal[0])] for the parameter
    [char *printVal]: the size of a pointer. *)
Definition arrLen : Z := 2.

Definition star_key (e : edit) : edit :=
  if cursorPos e =? 0 then e
  else if decimalPos e <? cursorPos e then
    let e1 := fold_left (fun e i => copy_char i (decimalPos e + i) e)
                (range (decimalPos e) (cursorPos e)) e in
    let e2 := wr_printVal (cursorPos e1) "."%char e1 in
    set_decimalPos (cursorPos e2) e2
  else if decimalPos e >? cursorPos e then
    let e1 := fold_left (fun e i => copy_char i (i + 1) e)
                (range (decimalPos e) (arrLen + 1)) e in
    let e2 := wr_printVal (cursorPos e1) "."%char e1 in
    let e3 := set_decimalPos (cursorPos e2) e2 in
    if cursorPos e3 =? 0 then
      let e4 := fold_left (fun e i => copy_char (arrLen - i + 1) (arrLen - i) e)
                  (range 0 (arrLen - 1)) e3 in
      wr_printVal 0 zero (wr_printVal 1 "."%char e4)
    else e3
  else e.

Definition digit_key (keypressed : ascii) (sigFig : Z) (e : edit) : edit :=
  let e1 :=
    if (cursorPos e >=? sigFig)
       && ((cursorPos e =? decimalPos e) || (decimalPos e =? -1))
    then set_decimalPos sigFig
           (set_cursorPos (cursorPos e + 1) (wr_printVal (cursorPos e) "."%char e))
    else e in
  let e2 := wr_printVal (cursorPos e1) keypressed e1 in
  let e3 :=
    if (decimalPos e2 =? cursorPos e2) && (cursorPos e2 =? sigFig - 1)
    then set_decimalPos sigFig (wr_printVal sigFig "."%char e2)
    else if decimalPos e2 =? cursorPos e2 then set_decimalPos (-1) e2
    else e2 in
  if ((cursorPos e3 >? 1) && ((decimalPos e3 =? 0) || (decimalPos e3 =? sigFig)))
     || (cursorPos e3 >? 2)
  then set_printInt 3 (set_cursorPos 0 e3)
  else set_cursorPos (cursorPos e3 + 1) e3.

(** [LCDinput(keypressed, &decimalPos, printVal, &printInt, &cursorPos, sigFig)].
    The loop at its top prints [printVal[0]] ... [printVal[arrLen-1]]. *)
Definition LCDinput (keypressed : ascii) (sigFig : Z) (e : edit) : edit :=
  let e0 := fold_left (fun e i => snd (rd_printVal i e)) (range 0 arrLen) e in
  if Ascii.eqb keypressed "B" then
    let e1 := set_cursorPos (cursorPos e0 + 1) e0 in
    if cursorPos e1 >? printInt e1 then set_cursorPos 0 e1 else e1
  else if Ascii.eqb keypressed "C" then
    let e1 := set_cursorPos (cursorPos e0 - 1) e0 in
    if cursorPos e1 <? 0 then set_cursorPos (printInt e1) e1 else e1
  else if isDigit keypressed || Ascii.eqb keypressed "*" then
    if Ascii.eqb keypressed "*" then star_key e0 else digit_key keypressed sigFig e0
  else e0.

(** ** The keypad screens *)

(** [myKeypad.getKey()] returns the next scan result, [NO_KEY] when no key
    went down.  The scans a screen will see are a list; when the list is
    used up nothing is pressed any more. *)
Definition getKey (keys : list ascii) : ascii * list ascii :=
  match keys with
  | [] => (NO_KEY, [])
  | k :: rest => (k, rest)
  end.

(** A screen's loop [while (Menu != 1) { body; keypressed = getKey(); }]:
    [body] returns the new value of [Menu] and of the variables.  A loop
    that is still running when the scans are used up polls for ever: the
    screen never returns, which is [None]. *)
Fixpoint key_loop {L : Type} (body : ascii -> L -> bool * L)
    (keys : list ascii) (keypressed : ascii) (vars : L)
  : option (L * list ascii) :=
  let (Menu, vars') := body keypressed vars in
  if Menu then Some (vars', snd (getKey keys))
  else match keys with
       | [] => None
       | k :: rest => key_loop body rest k vars'
       end.

Section Screens.

(** The C library, and what the stack holds around the zero-length local
    buffers [char stringLCDVal[] = {}]. *)
Variable atof : (Z -> ascii) -> float.
Variable dtostrf : float -> Z -> Z -> list ascii.
Variable strcmp : (Z -> ascii) -> string -> Z.
Variable junk : Z -> ascii.

Definition is_edit_key (k : ascii) : bool :=
  isDigit k || Ascii.eqb k "*" || Ascii.eqb k "C" || Ascii.eqb k "B".

(** *** SetRate *)

Definition SetRate_body (keypressed : ascii) (vars : Z * edit * state)
  : bool * (Z * edit * state) :=
  let '(unitVal, e, s) := vars in
  if Ascii.eqb keypressed "A" || Ascii.eqb keypressed "#" then
    let unitVal := unitVal + 1 in
    (false, (if unitVal >? 3 then 0 else unitVal, e, s))
  else if Ascii.eqb keypressed "D" then (true, vars)
  else if is_edit_key keypressed then
    let e' := LCDinput keypressed 3 e in
    (false, (unitVal, e', exec (wr_floatVar 0 (atof (printVal e'))) s))
  else (false, vars).

(** The three [EEPROM.put] calls that end [SetRate]. *)
Definition SetRate_save : M unit :=
  EEPROM_put_motorStatus 0 ;;;
  EEPROM_put_floatVar 1 ;;;
  EEPROM_put_flowStatus 2.

(** The end of [SetRate].  The caller reads [motorStruct[1]] for the
    duty, which is the second entry of the array [Units2Pct] built. *)
Definition SetRate_finish (motorSel motorVal unitVal : Z) (e : edit) : M unit :=
  motorVal <-
    (if unitVal =? 0 then
       r <- rd_floatVar 0 ;;
       when (F32.gtb r (F32.of_Z 100)) (wr_floatVar 0 (F32.of_Z 100)) ;;;
       ret (f2int (F32.mul (F32.of_Z motorVal) (F32.dec 255 2)))
     else
       motorStruct <- Units2Pct unitVal 0 (printInt e) (decimalPos e) ;;
       ret (nth 1 motorStruct 0)) ;;
  wr_motorStatus 1 motorSel 0 motorVal ;;;
  wr_flowStatus 0 unitVal ;;;
  setTargetTime ;;;
  SetRate_save.

Definition SetRate (keys : list ascii) (s : state) : option (state * list ascii) :=
  let (_, keys) := getKey keys in
  let '(motorSel, motorVal, unitVal, r, s) :=
    (let (motorSel, s) := rd_flowStatus 2 s in
     let (motorVal, s) := rd_motorStatus 0 motorSel 0 s in
     let (unitVal, s) := rd_flowStatus 0 s in
     let (r, s) := rd_floatVar 0 s in
     (motorSel, motorVal, unitVal, r, s)) in
  let e := mkEdit 0 (fill junk 0 (dtostrf r 2 2 ++ [zero])) 0 0 [] in
  match key_loop SetRate_body keys "A" (unitVal - 1, e, s) with
  | None => None
  | Some ((unitVal, e, s), keys) =>
      Some (exec (SetRate_finish motorSel motorVal unitVal e) s, keys)
  end.

(** *** SetVolume *)

Definition SetVolume_body (sigFig : Z) (keypressed : ascii) (e : edit)
  : bool * edit :=
  if Ascii.eqb keypressed "D" then (true, e)
  else if is_edit_key keypressed then (false, LCDinput keypressed sigFig e)
  else (false, e).

(** The condition [if (flowStatus[0] = 0)] is an assignment. *)
Definition SetVolume (keys : list ascii) (s : state) : option (state * list ascii) :=
  let (keypressed, keys) := getKey keys in
  let tempVal := F32.div (F32.of_Z (volFloat s)) (F32.of_Z 100) in
  let buffer := fill junk 0 (dtostrf tempVal 2 2 ++ [zero]) in
  let e := mkEdit (strcmp buffer "." - 1) buffer 4 0 [] in
  let sigFig := 2 in
  let s := exec (wr_flowStatus 0 0) s in
  match key_loop (SetVolume_body sigFig) keys keypressed e with
  | None => None
  | Some (e, keys) =>
      let tempVal := atof (printVal e) in
      Some (exec (modify (set_volFloat (f2int (F32.mul tempVal (F32.of_Z 100)))) ;;;
                  EEPROM_put_volFloat 3 ;;;
                  setTargetTime) s, keys)
  end.

End Screens.

(** ** sizeInt *)

(** The number of decimal digits of an [int], as the chain of comparisons
    computes it. *)
Definition sizeInt (x : Z) : Z :=
  if x >? 9999 then 5
  else if x >? 999 then 4
  else if x >? 99 then 3
  else if x >? 9 then 2
  else 1.

(** ** DiaConv *)

(** The macro [PI] as a binary32 number: 13176795 * 2^-22, the float
    nearest to 3.14159265... *)
Definition PI : float := S754_finite false 13176795 (-22).

(** [int DiaConv(int r)]: [h1] is the [int] 23 (from 23.713), [r ^ 2] is the
    exclusive or of two [int]s, [h0] and the result are [int]s, and
    [h0 / h1] is the quotient of two [int]s. *)
Definition DiaConv (r : Z) : Z :=
  let h1 := F32.trunc (F32.dec 23713 3) in
  let v := F32.dec 27855 3 in
  let h0 := f2int (F32.div (F32.mul PI (F32.of_Z (Z.lxor r 2))) v) in
  let diaScale := F32.of_Z (Z.quot h0 h1) in
  f2int diaScale.

(** ** SetInfWith *)

(** The direction flag [InfWith] is a global of its own; the screen touches
    nothing else. *)
Definition SetInfWith_body (keypressed : ascii) (InfWith : bool) : bool * bool :=
  if Ascii.eqb keypressed "B" || Ascii.eqb keypressed "C" then (false, negb InfWith)
  else if Ascii.eqb keypressed "D" then (true, InfWith)
  else (false, InfWith).

Definition SetInfWith (keys : list ascii) (InfWith : bool) : option (bool * list ascii) :=
  let (_, keys) := getKey keys in
  key_loop SetInfWith_body keys "B" InfWith.

(** ** SetDiameter, MenuUI and loop *)

(** What the pointer [DiaVal] points to: nothing yet (it is not
    initialised), one of the two string literals, or the local buffer. *)
Inductive DiaVal_target : Type :=
| DiaVal_uninitialised
| DiaVal_BD10
| DiaVal_BD20
| DiaVal_buffer.

Section Menu.

(** The C library; what the stack holds where the local buffers of the
    three editing screens and the variables [DiaVal] and [DiaInt] lie; the
    memory behind the string literals; and the addresses of the four
    things [DiaVal] can point to. *)
Variable atof : (Z -> ascii) -> float.
Variable dtostrf : float -> Z -> Z -> list ascii.
Variable strcmp : (Z -> ascii) -> string -> Z.
Variable junk_rate junk_diameter junk_volume : Z -> ascii.
Variable junk_DiaVal : Z -> ascii.
Variable junk_DiaInt : Z.
Variable rodata : Z -> ascii.
Variable address : DiaVal_target -> Z.

Definition DiaVal_chars (p : DiaVal_target) (e : edit) : Z -> ascii :=
  match p with
  | DiaVal_uninitialised => junk_DiaVal
  | DiaVal_BD10 => fill rodata 0 (list_ascii_of_string "14.5" ++ [zero])
  | DiaVal_BD20 => fill rodata 0 (list_ascii_of_string "19.13" ++ [zero])
  | DiaVal_buffer => printVal e
  end.

(** The variables of the loop of [SetDiameter]: [unitVal], [DiaVal] and
    what [LCDinput] works on. *)
Definition SetDiameter_body (keypressed : ascii) (vars : Z * DiaVal_target * edit)
  : bool * (Z * DiaVal_target * edit) :=
  let '(unitVal, DiaVal, e) := vars in
  if Ascii.eqb keypressed "B" || Ascii.eqb keypressed "#" then
    let unitVal := unitVal + 1 in
    let unitVal := if unitVal >? 2 then 0 else unitVal in
    let DiaVal :=
      if unitVal =? 1 then DiaVal_BD10
      else if unitVal =? 2 then DiaVal_BD20
      else DiaVal in
    (false, (unitVal, DiaVal, e))
  else if (unitVal =? 0) && (isDigit keypressed || Ascii.eqb keypressed "*") then
    (false, (unitVal, DiaVal_buffer, LCDinput keypressed 2 e))
  else if Ascii.eqb keypressed "D" then (true, vars)
  else (false, vars).

(** [DiaConv] takes an [int] and is given the pointer [DiaVal]: it works
    on the address. *)
Definition SetDiameter (keys : list ascii) (s : state) : option (state * list ascii) :=
  let (_, keys) := getKey keys in
  let s := exec (rd_floatVar 2 ;;; rd_floatVar 1 ;;; ret tt) s in
  let e := mkEdit 0 junk_diameter junk_DiaInt 0 [] in
  match key_loop SetDiameter_body keys "B" (-1, DiaVal_uninitialised, e) with
  | None => None
  | Some ((_, DiaVal, e), keys) =>
      let tempVal := atof (DiaVal_chars DiaVal e) in
      let diaScale := F32.of_Z (DiaConv (wrap_int (address DiaVal))) in
      Some (exec (wr_floatVar 1 tempVal ;;;
                  wr_floatVar 2 diaScale ;;;
                  EEPROM_put_floatVar 1) s, keys)
  end.

(** The firmware state together with the direction flag. *)
Definition machine : Type := (state * bool)%type.

(** The screen behind each menu item. *)
Definition run_screen (MenuChoice : Z) (keys : list ascii) (m : machine)
  : option (option (machine * list ascii)) :=
  let (s, InfWith) := m in
  if MenuChoice =? 0 then
    Some (option_map (fun r => ((fst r, InfWith), snd r))
            (SetRate atof dtostrf junk_rate keys s))
  else if MenuChoice =? 1 then
    Some (option_map (fun r => ((fst r, InfWith), snd r)) (SetDiameter keys s))
  else if MenuChoice =? 2 then
    Some (option_map (fun r => ((s, fst r), snd r)) (SetInfWith keys InfWith))
  else if MenuChoice =? 3 then
    Some (option_map (fun r => ((fst r, InfWith), snd r))
            (SetVolume atof dtostrf strcmp junk_volume keys s))
  else None.

Definition menu_move (keypressed : ascii) (MenuChoice : Z) : Z :=
  if Ascii.eqb keypressed "B" then
    (if MenuChoice + 1 >? 3 then 0 else MenuChoice + 1)
  else if Ascii.eqb keypressed "C" then
    (if MenuChoice - 1 <? 0 then 3 else MenuChoice - 1)
  else MenuChoice.

(** The loop of [MenuUI].  A screen reads the keypad itself; when it
    returns, [Menu] is 1 and the loop ends after one more scan.  With a
    [MenuChoice] outside 0..3 the [switch] has no case and A does nothing.
    [LCDhome], called after the loop, only writes to the display and
    prints. *)
Fixpoint MenuUI_loop (keys : list ascii) (keypressed : ascii) (MenuChoice : Z)
    (m : machine) : option (machine * list ascii) :=
  let MenuChoice := menu_move keypressed MenuChoice in
  let continue (m : machine) :=
    if Ascii.eqb keypressed "#" || Ascii.eqb keypressed "D"
    then Some (m, snd (getKey keys))
    else match keys with
         | [] => None
         | k :: rest => MenuUI_loop rest k MenuChoice m
         end in
  if Ascii.eqb keypressed "A" then
    match run_screen MenuChoice keys m with
    | Some None => None
    | Some (Some (m', keys')) => Some (m', snd (getKey keys'))
    | None => continue m
    end
  else continue m.

Definition MenuUI (keys : list ascii) (m : machine) : option (machine * list ascii) :=
  let (keypressed, keys) := getKey keys in
  MenuUI_loop keys keypressed 0 m.

(** [loop()] as it is compiled: the run timer, then the menu when A is
    pressed.  [now] is what [millis()] returns.  The array [incoming] is
    declared and never used: nothing is read from the serial port. *)
Definition loop (now : Z) (keys : list ascii) (m : machine)
  : option (machine * list ascii) :=
  let (keypressed, keys) := getKey keys in
  let s := exec (loop_autostop now) (fst m) in
  if Ascii.eqb keypressed "A" then MenuUI keys (s, snd m)
  else Some ((s, snd m), keys).

End Menu.

(** * Properties *)

(** ** States used in the statements *)

(** The state after the first boot of a board whose EEPROM was never
    written: [setup] has stored the defaults (rate 37.00, diameter 14.50,
    scale 1.00, unit 0, volume 0). *)
Definition first_boot : state := exec setup (power_on erased_eeprom).

Definition with_rate (r : float) (s : state) : state :=
  set_floatVar (upd (floatVar s) 0 r) s.
Definition with_unit (u : Z) (s : state) : state :=
  set_flowStatus (upd (flowStatus s) 0 u) s.
Definition with_volume (v : Z) (s : state) : state := set_volFloat v s.

(** A gear selection is one of the ten gears or one of the two saturation
    markers. *)
Definition is_gear_or_saturation (g : Z) : bool :=
  ((1 <=? g) && (g <=? 10)) || (g =? -1) || (g =? -2).

Definition duty_in_range (d : Z) : bool := (0 <=? d) && (d <=? 255).

(** A rate of 50 ml/min, as a session of the rate screen leaves it in RAM. *)
Definition saved_calibration : state :=
  with_unit 3 (with_rate (F32.of_Z 50) first_boot).

(** The rate that [setup] finds in the store. *)
Definition stored_rate (ee : Z -> Z) : float :=
  float_of_bytes (ee 1) (ee 2) (ee 3) (ee 4).

(** A run whose timer expires at 5000: started at 0 for 5000 ms. *)
Definition expiring_run : state :=
  set_tm (mkTimers 0 0 5000 0 true) first_boot.

(** The state in which a tick leaves a running timer: elapsed and
    remaining time refreshed. *)
Definition ticking (now : Z) (s : state) : state :=
  set_tm (mkTimers (startTime (tm s)) (wrap_ulong (now - startTime (tm s)))
            (targetTime (tm s))
            (wrap_ulong (targetTime (tm s) - wrap_ulong (now - startTime (tm s))))
            true) s.



(** A computation keeps a view of the state when it never changes it. *)
Definition keeps {A B : Type} (proj : state -> B) (m : M A) : Prop :=
  forall s, proj (snd (m s)) = proj s.

(** What the keypad cannot reach: what the motors were told, whether the
    run timer is on, and the serial input waiting to be read. *)
Definition beyond_keypad (s : state)
  : (Z -> Z -> run_cmd) * (Z -> Z -> Z) * bool * list ascii :=
  (motor_run s, motor_speed s, timeCounter (tm s), serial_in s).

(** Everything but the calibration values and the record of accesses. *)
Definition channels_and_store (s : state) :=
  (motorStatus s, flowStatus s, volFloat s, tm s, eeprom s, motor_speed s,
   motor_run s, serial_out s).

(** The branch of [setup] that installs the default rate, diameter and
    scale, after the record was read from address 1. *)
Definition install_default_floatVar : M unit :=
  EEPROM_get_floatVar 1 ;;;
  rd_floatVar 0 ;;;
  wr_floatVar 0 (F32.dec 3700 2) ;;;
  wr_floatVar 1 (F32.dec 1450 2) ;;;
  wr_floatVar 2 (F32.dec 100 2) ;;;
  EEPROM_put_floatVar 1.

(** The editor after a series of keys, each handed to [LCDinput] as the
    loops of the screens do. *)
Definition edit_session (sigFig : Z) (keys : list ascii) (e : edit) : edit :=
  fold_left (fun e k => LCDinput k sigFig e) keys e.

(** The cursor and the cursor limit are between 0 and [P], and every
    subscript used so far is between 0 and [P + 1]. *)
Definition edit_within (P : Z) (e : edit) : Prop :=
  0 <= cursorPos e <= P /\
  0 <= printInt e <= P /\
  forall a, In a (accesses e) -> 0 <= snd a <= P + 1.

(** Everything [setTargetTime] could reach but the target time and the
    record of accesses. *)
Definition all_but_target (s : state) :=
  (motorStatus s, flowStatus s, floatVar s, volFloat s, eeprom s, motor_speed s,
   motor_run s, serial_out s,
   (startTime (tm s), elapsedTime (tm s), timeRemaining (tm s), timeCounter (tm s))).

(** The key that ends a screen. *)
Definition is_D (k : ascii) : bool := Ascii.eqb k "D".

(** The keys B and C, which [SetInfWith] answers by changing direction. *)
Definition is_B_or_C (k : ascii) : bool := Ascii.eqb k "B" || Ascii.eqb k "C".

(** How far a series of B and C keys moves the menu: one step on for each
    B, one step back for each C. *)
Fixpoint menu_steps (keys : list ascii) : Z :=
  match keys with
  | [] => 0
  | k :: rest =>
      (if Ascii.eqb k "B" then 1 else if Ascii.eqb k "C" then -1 else 0)
      + menu_steps rest
  end.

(** What [MenuUI] does once the screen it opened is over: the screen must
    return, and one more scan is taken. *)
Definition leave_menu (r : option (option (machine * list ascii)))
  : option (machine * list ascii) :=
  match r with
  | Some (Some (m, keys)) => Some (m, snd (getKey keys))
  | _ => None
  end.

Section Runs.

Variable atof : (Z -> ascii) -> float.
Variable dtostrf : float -> Z -> Z -> list ascii.
Variable strcmp : (Z -> ascii) -> string -> Z.
Variable junk_rate junk_diameter junk_volume : Z -> ascii.
Variable junk_DiaVal : Z -> ascii.
Variable junk_DiaInt : Z.
Variable rodata : Z -> ascii.
Variable address : DiaVal_target -> Z.

(** [loop()] called again and again, as the Arduino core does, once for
    each of the clock readings [nows]. *)
Fixpoint loops (nows : list Z) (keys : list ascii) (m : machine)
  : option (machine * list ascii) :=
  match nows with
  | [] => Some (m, keys)
  | now :: later =>
      match loop atof dtostrf strcmp junk_rate junk_diameter junk_volume
              junk_DiaVal junk_DiaInt rodata address now keys m with
      | None => None
      | Some (m', keys') => loops later keys' m'
      end
  end.

End Runs.

(** ** The monad *)

Lemma bind_ret_l {A B : Type} (a : A) (k : A -> M B) (s : state) :
  bind (ret a) k s = k a s.
Proof. reflexivity. Qed.

Lemma exec_bind_unit (m k : M unit) (s : state) :
  exec (bind m (fun _ => k)) s = exec k (exec m s).
Proof. unfold exec, bind. destruct (m s). reflexivity. Qed.

(** ** Flow-rate mapper *)

(** With a scale of 1.00 the lower bounds 16, 9, 3 and 2 of the first four
    gears are compared with 0 or 1: these gears are never selected. *)
Lemma chained_gt_never (a t : float) :
  chained_gt a t (F32.of_Z 16) = false /\
  chained_gt a t (F32.of_Z 9) = false /\
  chained_gt a t (F32.of_Z 3) = false /\
  chained_gt a t (F32.of_Z 2) = false.
Proof.
  unfold chained_gt. destruct (F32.gtb a t); repeat split; reflexivity.
Qed.

(** With the default scale, whatever the rate and the unit, [Units2Pct]
    never selects one of the gears 1 to 4. *)
Lemma Units2Pct_gears_1_to_4_dead (unitVal : Z) (s : state) :
  floatVar s 2 = F32.dec 100 2 ->
  ~ In (gearRatio_of (fst (Units2Pct unitVal 0 0 0 s))) [1; 2; 3; 4].
Proof.
  intro Hs.
  unfold Units2Pct, rd_floatVar, wr_floatVar, log, bind, get, modify, ret.
  cbn [fst snd floatVar set_trace].
  rewrite Hs.
  set (t := normalized unitVal (floatVar s 0)).
  change (F32.mul (F32.of_Z 37) (F32.dec 100 2)) with (F32.of_Z 37).
  change (F32.mul (F32.of_Z 16) (F32.dec 100 2)) with (F32.of_Z 16).
  change (F32.mul (F32.of_Z 9) (F32.dec 100 2)) with (F32.of_Z 9).
  change (F32.mul (F32.of_Z 3) (F32.dec 100 2)) with (F32.of_Z 3).
  change (F32.mul (F32.of_Z 2) (F32.dec 100 2)) with (F32.of_Z 2).
  destruct (chained_gt_never (F32.of_Z 37) t) as (E1 & _).
  destruct (chained_gt_never (F32.of_Z 16) t) as (_ & E2 & _).
  destruct (chained_gt_never (F32.of_Z 9) t) as (_ & _ & E3 & _).
  destruct (chained_gt_never (F32.of_Z 3) t) as (_ & _ & _ & E4).
  rewrite E1, E2, E3, E4.
  repeat match goal with
         | |- context [if ?b then _ else _] => destruct b
         end;
    cbn [fst gearRatio_of nth]; simpl; intuition discriminate.
Qed.

(** C1.  The classification of [Units2Pct] is not a partition: with the
    default scale 1.00 and the unit ml/min, the rate 20 selects none of the
    ten gears and neither saturation case (the result is [{0, 0}]), and the
    rate 0.2, which lies between the calibrated bounds 0.1 and 0.3 of gear
    7, selects gear 5 with the duty -20, outside [0,255]. *)
Theorem Units2Pct_no_range_at_20 :
  let s := with_rate (F32.of_Z 20) first_boot in
  let s' := with_rate (F32.dec 2 1) first_boot in
  floatVar s 2 = F32.dec 100 2 /\
  fst (Units2Pct 3 0 0 0 s) = [0; 0] /\
  is_gear_or_saturation (gearRatio_of (fst (Units2Pct 3 0 0 0 s))) = false /\
  fst (Units2Pct 3 0 0 0 s') = [-20; 5] /\
  duty_in_range (motorVal_of (fst (Units2Pct 3 0 0 0 s'))) = false.
Proof.
  vm_compute. repeat split; reflexivity.
Qed.

(** C5.  Saturation is missed on both sides.  With the default scale 1.00,
    the rate 0.001 ml/min is below the bottom bound [0.0066 * scale] and
    yields gear 5 with duty -33 instead of the floor 64 with marker -2; the
    rate 1000 in unit 1 is normalised to 60, above the top bound
    [37 * scale], and yields gear 7 with duty 20894 instead of 255 with
    marker -1. *)
Theorem Units2Pct_saturation_missed :
  let low := with_rate (F32.dec 1 3) first_boot in
  let high := with_rate (F32.of_Z 1000) first_boot in
  F32.ltb (normalized 3 (floatVar low 0)) (F32.mul (F32.dec 66 4) (floatVar low 2)) = true /\
  fst (Units2Pct 3 0 0 0 low) = [-33; 5] /\
  F32.gtb (normalized 1 (floatVar high 0)) (F32.mul (F32.of_Z 37) (floatVar high 2)) = true /\
  fst (Units2Pct 1 0 0 0 high) = [20894; 7].
Proof.
  vm_compute. repeat split; reflexivity.
Qed.

(** ** Calibration store *)

Lemma setup_floatVar_nonzero (s : state) :
  F32.neqb (stored_rate (eeprom s)) (F32.of_Z 0) = true ->
  floatVar (exec setup_floatVar s) 0 = F32.dec 3700 2.
Proof.
  intro H.
  unfold setup_floatVar, exec, EEPROM_get_floatVar, rd_floatVar, log, bind, get, modify.
  cbn [fst snd floatVar set_trace set_floatVar eeprom].
  change (upd (upd (floatVar s) 0
                 (float_of_bytes (eeprom s 1) (eeprom s (1 + 1)) (eeprom s (1 + 2))
                    (eeprom s (1 + 3)))) 1
            (float_of_bytes (eeprom s (1 + 4)) (eeprom s (1 + 5)) (eeprom s (1 + 6))
               (eeprom s (1 + 7))) 0)
    with (stored_rate (eeprom s)).
  rewrite H. reflexivity.
Qed.

Lemma setup_flowStatus_floatVar (s : state) :
  floatVar (exec setup_flowStatus s) = floatVar s.
Proof.
  unfold setup_flowStatus, exec, EEPROM_get_flowStatus, rd_flowStatus, log, bind, get, modify.
  cbn [fst snd].
  match goal with |- context [when ?b _] => destruct b end; reflexivity.
Qed.

Lemma setup_volFloat_floatVar (s : state) :
  floatVar (exec setup_volFloat s) = floatVar s.
Proof.
  unfold setup_volFloat, exec, EEPROM_get_volFloat, bind, get, modify.
  cbn [fst snd].
  match goal with |- context [when ?b _] => destruct b end; reflexivity.
Qed.

Lemma setup_motors_eeprom (s : state) : eeprom (exec setup_motors s) = eeprom s.
Proof. reflexivity. Qed.

(** Whatever non-zero rate the store holds, [setup] replaces it by 37.00. *)
Lemma setup_overwrites_nonzero_rate (ee : Z -> Z) :
  F32.neqb (stored_rate ee) (F32.of_Z 0) = true ->
  floatVar (exec setup (power_on ee)) 0 = F32.dec 3700 2.
Proof.
  intro H. unfold setup.
  rewrite !exec_bind_unit.
  rewrite setup_volFloat_floatVar, setup_flowStatus_floatVar.
  apply setup_floatVar_nonzero. rewrite setup_motors_eeprom. exact H.
Qed.

(** C2.  A saved calibration does not survive a restart.  After the three
    [EEPROM.put] calls of [SetRate] on a record with rate 50 and unit 3
    (ml/min), [setup] on the next power-up finds a non-zero rate in the
    store, takes that for "no memory" and installs the defaults: the rate
    is 37.00 and the unit is 0 again.  The same happens to the unit after a
    whole session of the rate screen that selects ml/min (keys A, A, A, D). *)
Theorem setup_discards_saved_rate :
  (let c := saved_calibration in
   let s := exec setup (power_on (eeprom (exec SetRate_save c))) in
   floatVar c 0 = F32.of_Z 50 /\ flowStatus c 0 = 3 /\
   floatVar s 0 = F32.dec 3700 2 /\ flowStatus s 0 = 0 /\
   floatVar s 0 <> floatVar c 0) /\
  (forall atof dtostrf junk,
      match SetRate atof dtostrf junk [NO_KEY; "A"; "A"; "A"; "D"]%char first_boot with
      | Some (c, _) =>
          flowStatus c 0 = 3 /\
          flowStatus (exec setup (power_on (eeprom c))) 0 = 0
      | None => False
      end).
Proof.
  split.
  - vm_compute. repeat split; try reflexivity. discriminate.
  - intros atof dtostrf junk. vm_compute. split; reflexivity.
Qed.

(** ** Run timer *)

Lemma loop_autostop_cases (now : Z) (s : state) :
  exec (loop_autostop now) s =
  if timeCounter (tm s) then
    if targetTime (tm s) <=? wrap_ulong (now - startTime (tm s))
    then exec stop_expired_run (ticking now s)
    else ticking now s
  else s.
Proof.
  unfold loop_autostop, exec, bind, get, ticking.
  destruct (timeCounter (tm s)); [ | reflexivity ].
  cbv beta iota delta [when modify fst snd].
  destruct (targetTime (tm s) <=? wrap_ulong (now - startTime (tm s))); reflexivity.
Qed.

Lemma loop_autostop_idle (now : Z) (s : state) :
  timeCounter (tm s) = false -> exec (loop_autostop now) s = s.
Proof.
  intro H. rewrite loop_autostop_cases, H. reflexivity.
Qed.

Lemma loop_autostop_early (now : Z) (s : state) :
  timeCounter (tm s) = true ->
  wrap_ulong (now - startTime (tm s)) < targetTime (tm s) ->
  exec (loop_autostop now) s = ticking now s.
Proof.
  intros Hc Hlt. rewrite loop_autostop_cases, Hc.
  apply Z.leb_gt in Hlt. rewrite Hlt. reflexivity.
Qed.

Lemma loop_autostop_expired (now : Z) (s : state) :
  timeCounter (tm s) = true ->
  targetTime (tm s) <= wrap_ulong (now - startTime (tm s)) ->
  exec (loop_autostop now) s = exec stop_expired_run (ticking now s).
Proof.
  intros Hc Hle. rewrite loop_autostop_cases, Hc.
  apply Z.leb_le in Hle. rewrite Hle. reflexivity.
Qed.


Lemma stop_expired_run_motor_run (s : state) :
  motor_run (exec stop_expired_run s) = upd2 (upd2 (motor_run s) 0 0 RELEASE) 0 1 RELEASE.
Proof. reflexivity. Qed.


Lemma stop_expired_run_tm (s : state) :
  tm (exec stop_expired_run s) = mkTimers (startTime (tm s)) 0 0 (timeRemaining (tm s)) false.
Proof. reflexivity. Qed.


(** The configured channels are (0,0) and (0,1). *)
Lemma configured_channel (i j : Z) :
  0 <= i < nShields -> 0 <= j < nMotorsPerShield -> i = 0 /\ (j = 0 \/ j = 1).
Proof. unfold nShields, nMotorsPerShield. lia. Qed.

Lemma ticking_tm (now : Z) (s : state) :
  tm (ticking now s) =
  mkTimers (startTime (tm s)) (wrap_ulong (now - startTime (tm s))) (targetTime (tm s))
    (wrap_ulong (targetTime (tm s) - wrap_ulong (now - startTime (tm s)))) true.
Proof. reflexivity. Qed.

Lemma ticking_motorStatus (now : Z) (s : state) :
  motorStatus (ticking now s) = motorStatus s.
Proof. reflexivity. Qed.

Lemma ticking_motor_run (now : Z) (s : state) :
  motor_run (ticking now s) = motor_run s.
Proof. reflexivity. Qed.







(** ** Stopping a channel *)




(** ** Target time with the percent unit *)

Lemma setTargetTime_percent_result (s : state) :
  flowStatus s 0 = 0 ->
  exists tr,
    exec setTargetTime s =
    set_tm (mkTimers (startTime (tm s)) (elapsedTime (tm s))
              (f2ulong
                 (F32.mul
                    (F32.div (F32.of_Z (Z.quot (volFloat s) 100)) (floatVar s 0))
                    (F32.of_Z 60000)))
              (timeRemaining (tm s)) (timeCounter (tm s)))
      (set_trace tr s).
Proof.
  intro Hu.
  unfold setTargetTime, exec, rd_flowStatus, rd_floatVar, log, bind, get, modify, ret.
  cbn [fst snd flowStatus set_trace].
  rewrite Hu. cbn [Z.eqb negb].
  eexists. reflexivity.
Qed.

(** C7 as stated fails: with the percent unit a target time is computed
    and nothing is reported.  Volume 5.00 at rate 50 gives 6000 ms; volume
    0.50 gives a duration of 0. *)
Lemma percent_unit_still_timed :
  let s := with_unit 0 (with_volume 500 (with_rate (F32.of_Z 50) first_boot)) in
  let s0 := with_unit 0 (with_volume 50 (with_rate (F32.of_Z 50) first_boot)) in
  targetTime (tm (exec setTargetTime s)) = 6000 /\
  serial_out (exec setTargetTime s) = serial_out s /\
  targetTime (tm (exec setTargetTime s0)) = 0 /\
  serial_out (exec setTargetTime s0) = serial_out s0.
Proof.
  vm_compute. repeat split; reflexivity.
Qed.

Lemma quot_100_small (v : Z) : -100 < v < 100 -> Z.quot v 100 = 0.
Proof.
  intro H. destruct (Z_lt_le_dec v 0) as [Hneg | Hpos].
  - rewrite <- (Z.opp_involutive v), Z.quot_opp_l by lia.
    rewrite Z.quot_small by lia. reflexivity.
  - apply Z.quot_small. lia.
Qed.

(** A volume of zero units divided by any rate, even 0, an infinity or a
    NaN, gives a target time of 0. *)
Lemma zero_volume_target (r : float) :
  f2ulong (F32.mul (F32.div (F32.of_Z 0) r) (F32.of_Z 60000)) = 0.
Proof.
  destruct r as [ [ | ] | [ | ] | | [ | ] m e ]; reflexivity.
Qed.

(** C7, amended.  [setTargetTime] has no error path.  With the percent
    unit it computes the target time from the volume and the rate like for
    the other units, only without a unit conversion:
    [(volFloat / 100) / rate * 60000] with the integer quotient of the
    volume, which is 0 ms for every volume below 1.00; it sends nothing
    and changes nothing but [targetTime] (and the record of the array
    cells it read). *)
Theorem setTargetTime_percent :
  forall s : state,
    flowStatus s 0 = 0 ->
    let s' := exec setTargetTime s in
    targetTime (tm s') =
      f2ulong (F32.mul (F32.div (F32.of_Z (Z.quot (volFloat s) 100)) (floatVar s 0))
                 (F32.of_Z 60000)) /\
    (-100 < volFloat s < 100 -> targetTime (tm s') = 0) /\
    startTime (tm s') = startTime (tm s) /\
    elapsedTime (tm s') = elapsedTime (tm s) /\
    timeCounter (tm s') = timeCounter (tm s) /\
    serial_out s' = serial_out s /\
    motorStatus s' = motorStatus s /\ flowStatus s' = flowStatus s /\
    floatVar s' = floatVar s /\ volFloat s' = volFloat s /\
    eeprom s' = eeprom s /\ motor_speed s' = motor_speed s /\
    motor_run s' = motor_run s.
Proof.
  intros s Hu. cbv zeta.
  destruct (setTargetTime_percent_result s Hu) as [tr ->].
  split; [ reflexivity | ].
  split; [ | repeat split; reflexivity ].
  intro Hv. cbn [tm set_tm set_trace targetTime].
  rewrite (quot_100_small _ Hv). apply zero_volume_target.
Qed.

Lemma setTargetTime_percent_witness :
  flowStatus first_boot 0 = 0 /\
  targetTime (tm (exec setTargetTime first_boot)) =
    f2ulong (F32.mul (F32.div (F32.of_Z (Z.quot (volFloat first_boot) 100))
                        (floatVar first_boot 0))
               (F32.of_Z 60000)).
Proof.
  assert (H : flowStatus first_boot 0 = 0) by reflexivity.
  split; [ exact H | exact (proj1 (setTargetTime_percent first_boot H)) ].
Defined.

(** ** Decimal value editor *)

(** C8.  In the rate screen (three significant figures, buffer "37.00"),
    the digit 5 followed by the decimal-point key makes the shifting loop
    read index -2 and write index -1 of the buffer, outside [0, width) for
    every width, and leaves a decimal point at index 1 and at index 2. *)
Theorem LCDinput_point_after_digit :
  forall junk : Z -> ascii,
    let e0 := mkEdit 0 (fill junk 0 (list_ascii_of_string "37.00" ++ [zero])) 0 0 [] in
    let e := LCDinput "*" 3 (LCDinput "5" 3 e0) in
    In (false, -2) (accesses e) /\
    In (true, -1) (accesses e) /\
    (forall width : Z,
        exists a, In a (accesses e) /\ (0 <=? snd a) && (snd a <? width) = false) /\
    printVal e 1 = "."%char /\ printVal e 2 = "."%char.
Proof.
  intros junk e0 e.
  assert (Hacc : accesses e =
            [(false, 0); (false, 1); (true, 0); (false, 0); (false, 1);
             (false, -2); (true, -1); (false, -1); (true, 0); (true, 1)])
    by reflexivity.
  rewrite Hacc.
  split; [ simpl; tauto | ].
  split; [ simpl; tauto | ].
  split.
  - intro width. exists (true, -1). split; [ simpl; tauto | reflexivity ].
  - split; reflexivity.
Qed.

(** ** Array bounds *)

(** C9.  Indices beyond the declared extents are used: [setup] writes
    [floatVar[2]] and [flowStatus[2]] when it installs the defaults, the
    auto-stop of [loop] writes the run state [motorStatus[0][0][1]], and
    [SetRate] (entered and left with D) reads [flowStatus[2]] and writes
    the duty back to [motorStatus[1][0][0]]. *)
Theorem array_indices_out_of_bounds :
  (In (Acc FloatVar true [2]) (trace first_boot) /\
   In (Acc FlowStatus true [2]) (trace first_boot) /\
   in_bounds (Acc FloatVar true [2]) = false /\
   in_bounds (Acc FlowStatus true [2]) = false) /\
  (In (Acc MotorStatus true [0; 0; 1]) (trace (exec (loop_autostop 5000) expiring_run)) /\
   in_bounds (Acc MotorStatus true [0; 0; 1]) = false) /\
  (forall atof dtostrf junk,
      match SetRate atof dtostrf junk [NO_KEY; "D"%char] first_boot with
      | Some (s', rest) =>
          rest = [] /\
          In (Acc FlowStatus false [2]) (trace s') /\
          In (Acc MotorStatus true [1; 0; 0]) (trace s') /\
          in_bounds (Acc MotorStatus true [1; 0; 0]) = false
      | None => False
      end).
Proof.
  split; [ | split ].
  - vm_compute. intuition.
  - vm_compute. intuition.
  - intros atof dtostrf junk. vm_compute. intuition.
Qed.

(** ** Volume screen *)

Lemma setTargetTime_flowStatus (s : state) :
  flowStatus (exec setTargetTime s) = flowStatus s.
Proof.
  unfold setTargetTime, exec, rd_flowStatus, rd_floatVar, log, bind, get, modify, ret.
  cbn [fst snd flowStatus set_trace].
  destruct (negb (flowStatus s 0 =? 0)); reflexivity.
Qed.

(** Whatever is typed, a session of the volume screen that returns leaves
    the unit at 0. *)
Lemma SetVolume_unit_after_any_session
    (atof : (Z -> ascii) -> float) (dtostrf : float -> Z -> Z -> list ascii)
    (strcmp : (Z -> ascii) -> string -> Z) (junk : Z -> ascii)
    (keys rest : list ascii) (s s' : state) :
  SetVolume atof dtostrf strcmp junk keys s = Some (s', rest) ->
  flowStatus s' 0 = 0.
Proof.
  unfold SetVolume. destruct (getKey keys) as [k keys'].
  match goal with |- context [key_loop ?b ?ks ?k0 ?e] =>
    destruct (key_loop b ks k0 e) as [[e' keys''] | ] end; [ | discriminate ].
  intro H. injection H as <- _.
  rewrite !exec_bind_unit, setTargetTime_flowStatus. reflexivity.
Qed.

(** C10.  Opening the volume screen and leaving it with D, without typing
    anything, resets the selected flow unit: from unit 3 (ml/min) the
    session returns with [flowStatus[0]] equal to 0 (percent), whatever the
    C library does. *)
Theorem SetVolume_resets_unit :
  forall atof dtostrf strcmp junk,
    match SetVolume atof dtostrf strcmp junk [NO_KEY; "D"%char] saved_calibration with
    | Some (s', rest) =>
        rest = [] /\ flowStatus saved_calibration 0 = 3 /\ flowStatus s' 0 = 0
    | None => False
    end.
Proof.
  intros atof dtostrf strcmp junk. vm_compute. intuition.
Qed.

(** * Further properties *)

(** ** What a computation leaves alone *)

Lemma keeps_ret {A B : Type} (proj : state -> B) (a : A) : keeps proj (ret a).
Proof. intro s. reflexivity. Qed.

Lemma keeps_bind {A A' B : Type} (proj : state -> B) (m : M A) (k : A -> M A') :
  keeps proj m -> (forall a, keeps proj (k a)) -> keeps proj (bind m k).
Proof.
  intros Hm Hk s. unfold bind. specialize (Hm s). destruct (m s) as [a s1].
  cbn in Hm. rewrite (Hk a s1). exact Hm.
Qed.

Lemma keeps_when {B : Type} (proj : state -> B) (b : bool) (m : M unit) :
  keeps proj m -> keeps proj (when b m).
Proof. intro H. destruct b; [ exact H | apply keeps_ret ]. Qed.

Lemma keeps_for_each {A B : Type} (proj : state -> B) (l : list A) (body : A -> M unit) :
  (forall x, keeps proj (body x)) -> keeps proj (for_each l body).
Proof.
  intro H. induction l as [ | x l IH ]; cbn.
  - apply keeps_ret.
  - apply keeps_bind; [ apply H | intros _; exact IH ].
Qed.

Lemma keeps_exec {A B : Type} (proj : state -> B) (m : M A) (s : state) :
  keeps proj m -> proj (exec m s) = proj s.
Proof. intro H. exact (H s). Qed.

Ltac keeps_step :=
  first
    [ apply keeps_ret
    | apply keeps_when
    | apply keeps_for_each; intro
    | match goal with
      | |- keeps _ (if ?b then _ else _) => destruct b
      | |- keeps _ (match ?x with (_, _) => _ end) => destruct x
      end
    | apply keeps_bind; [ | intro ]
    | (intro; reflexivity) ].

Ltac keeps_all := repeat keeps_step.

Lemma In_snoc {A : Type} (a x : A) (l : list A) :
  In a (l ++ [x]) -> In a l \/ a = x.
Proof.
  intro H. apply in_app_or in H. destruct H as [H | [H | []]]; auto.
Qed.

Ltac bool_to_prop :=
  repeat match goal with
         | H : (_ =? _) = true |- _ => apply Z.eqb_eq in H
         | H : (_ =? _) = false |- _ => apply Z.eqb_neq in H
         | H : (_ <? _) = true |- _ => apply Z.ltb_lt in H
         | H : (_ <? _) = false |- _ => apply Z.ltb_ge in H
         | H : (_ >? _) = true |- _ => rewrite Z.gtb_ltb in H; apply Z.ltb_lt in H
         | H : (_ >? _) = false |- _ => rewrite Z.gtb_ltb in H; apply Z.ltb_ge in H
         | H : (_ >=? _) = true |- _ => rewrite Z.geb_leb in H; apply Z.leb_le in H
         | H : (_ >=? _) = false |- _ => rewrite Z.geb_leb in H; apply Z.leb_gt in H
         | H : (_ && _) = true |- _ => apply andb_true_iff in H; destruct H
         | H : (_ || _) = false |- _ => apply orb_false_iff in H; destruct H
         end.

Ltac split_ifs :=
  repeat match goal with
         | |- context [if ?b then _ else _] => destruct b eqn:?
         end.

Ltac in_accesses :=
  repeat match goal with
         | H : In _ (_ ++ [_]) |- _ => apply In_snoc in H; destruct H as [H | ->]
         end.

Lemma setTargetTime_keeps_beyond_keypad : keeps beyond_keypad setTargetTime.
Proof. unfold setTargetTime. keeps_all. Qed.

Lemma Units2Pct_keeps_beyond_keypad (u a b c : Z) : keeps beyond_keypad (Units2Pct u a b c).
Proof. unfold Units2Pct. keeps_all. Qed.

Lemma Units2Pct_keeps_rest (u a b c : Z) : keeps channels_and_store (Units2Pct u a b c).
Proof. unfold Units2Pct. keeps_all. Qed.

(** ** sizeInt *)

(** X1.  For every positive [int], [sizeInt] is the number of its decimal
    digits: [10^(n-1) <= x < 10^n]. *)
Theorem sizeInt_digits :
  forall x : Z,
    1 <= x <= 32767 ->
    10 ^ (sizeInt x - 1) <= x < 10 ^ sizeInt x.
Proof.
  intros x Hx. unfold sizeInt.
  destruct (Z.gtb_spec x 9999); [ cbn; lia | ].
  destruct (Z.gtb_spec x 999); [ cbn; lia | ].
  destruct (Z.gtb_spec x 99); [ cbn; lia | ].
  destruct (Z.gtb_spec x 9); cbn; lia.
Qed.

Lemma sizeInt_digits_witness :
  1 <= 1234 <= 32767 /\ 10 ^ (sizeInt 1234 - 1) <= 1234 < 10 ^ sizeInt 1234.
Proof.
  assert (H : 1 <= 1234 <= 32767) by lia.
  split; [ exact H | exact (sizeInt_digits 1234 H) ].
Defined.

(** ** What a boot leaves *)

Lemma setup_volFloat_zero (s : state) : volFloat (exec setup_volFloat s) = 0.
Proof.
  unfold setup_volFloat, exec, EEPROM_get_volFloat, bind, get, modify.
  cbn [fst snd volFloat set_volFloat].
  destruct (int_of_bytes (eeprom s 3) (eeprom s (3 + 1)) =? 0) eqn:E.
  - cbn. apply Z.eqb_eq. exact E.
  - reflexivity.
Qed.

Lemma setup_flowStatus_zero (s : state) : flowStatus (exec setup_flowStatus s) 0 = 0.
Proof.
  unfold setup_flowStatus, exec, EEPROM_get_flowStatus, rd_flowStatus, log, bind, get, modify.
  cbn [fst snd flowStatus set_flowStatus set_trace].
  match goal with |- context [when (negb (?v =? 0)) _] => destruct (v =? 0) eqn:E end.
  - cbn. apply Z.eqb_eq. exact E.
  - reflexivity.
Qed.

Lemma setup_volFloat_flowStatus (s : state) :
  flowStatus (exec setup_volFloat s) = flowStatus s.
Proof.
  unfold setup_volFloat, exec, EEPROM_get_volFloat, bind, get, modify.
  cbn [fst snd].
  match goal with |- context [when ?b _] => destruct b end; reflexivity.
Qed.

Lemma setup_floatVar_rate (s : state) :
  floatVar (exec setup_floatVar s) 0 =
  if F32.neqb (stored_rate (eeprom s)) (F32.of_Z 0) then F32.dec 3700 2
  else stored_rate (eeprom s).
Proof.
  unfold setup_floatVar, exec, EEPROM_get_floatVar, rd_floatVar, log, bind, get, modify.
  cbn [fst snd floatVar set_trace set_floatVar eeprom].
  change (upd (upd (floatVar s) 0
                 (float_of_bytes (eeprom s 1) (eeprom s (1 + 1)) (eeprom s (1 + 2))
                    (eeprom s (1 + 3)))) 1
            (float_of_bytes (eeprom s (1 + 4)) (eeprom s (1 + 5)) (eeprom s (1 + 6))
               (eeprom s (1 + 7))) 0)
    with (stored_rate (eeprom s)).
  destruct (F32.neqb (stored_rate (eeprom s)) (F32.of_Z 0)); reflexivity.
Qed.

Lemma setup_keeps_timer : keeps (fun s => timeCounter (tm s)) setup.
Proof.
  unfold setup, setup_motors, setup_floatVar, setup_flowStatus, setup_volFloat.
  keeps_all.
Qed.

Lemma setup_rate (ee : Z -> Z) :
  floatVar (exec setup (power_on ee)) 0 =
  (if F32.neqb (stored_rate ee) (F32.of_Z 0) then F32.dec 3700 2 else stored_rate ee).
Proof.
  unfold setup. rewrite !exec_bind_unit.
  rewrite setup_volFloat_floatVar, setup_flowStatus_floatVar, setup_floatVar_rate.
  rewrite setup_motors_eeprom. reflexivity.
Qed.

(** X2.  Whatever the EEPROM holds, [setup] ends with the unit 0 (percent)
    and the volume 0, and with a rate that is either the default 37.00 or
    the stored rate when that compares equal to 0: a unit, a volume or a
    rate other than zero never comes back from the store.  The run timer
    is off. *)
Theorem setup_result :
  forall ee : Z -> Z,
    let s := exec setup (power_on ee) in
    flowStatus s 0 = 0 /\
    volFloat s = 0 /\
    floatVar s 0 =
      (if F32.neqb (stored_rate ee) (F32.of_Z 0) then F32.dec 3700 2 else stored_rate ee) /\
    timeCounter (tm s) = false.
Proof.
  intro ee. cbv zeta.
  split; [ | split; [ | split ] ].
  - unfold setup. rewrite !exec_bind_unit.
    rewrite setup_volFloat_flowStatus. apply setup_flowStatus_zero.
  - unfold setup. rewrite !exec_bind_unit. apply setup_volFloat_zero.
  - apply setup_rate.
  - exact (setup_keeps_timer (power_on ee)).
Qed.

Lemma setup_floatVar_installs (s : state) :
  F32.neqb (stored_rate (eeprom s)) (F32.of_Z 0) = true ->
  exec setup_floatVar s = exec install_default_floatVar s.
Proof.
  intro H.
  unfold setup_floatVar, install_default_floatVar, exec, EEPROM_get_floatVar,
    rd_floatVar, log, bind, get, modify.
  cbn [fst snd floatVar set_trace set_floatVar eeprom].
  change (upd (upd (floatVar s) 0
                 (float_of_bytes (eeprom s 1) (eeprom s (1 + 1)) (eeprom s (1 + 2))
                    (eeprom s (1 + 3)))) 1
            (float_of_bytes (eeprom s (1 + 4)) (eeprom s (1 + 5)) (eeprom s (1 + 6))
               (eeprom s (1 + 7))) 0)
    with (stored_rate (eeprom s)).
  rewrite H. reflexivity.
Qed.

Lemma defaults_then_rest_zero_rate (s : state) :
  stored_rate (eeprom (exec setup_volFloat
                         (exec setup_flowStatus (exec install_default_floatVar s))))
  = F32.zero.
Proof. vm_compute. reflexivity. Qed.

(** X3.  When [setup] installs the default rate it does not leave it in
    the store: the defaults of [flowStatus], written at address 2 right
    after, cover bytes 2 to 5 of the record at address 1.  The rate in RAM
    is 37.00, the rate in the EEPROM is 0.0, and the next boot starts with
    the rate 0.0. *)
Theorem setup_default_rate_not_stored :
  forall ee : Z -> Z,
    F32.neqb (stored_rate ee) (F32.of_Z 0) = true ->
    let s := exec setup (power_on ee) in
    floatVar s 0 = F32.dec 3700 2 /\
    stored_rate (eeprom s) = F32.zero /\
    floatVar (exec setup (power_on (eeprom s))) 0 = F32.zero.
Proof.
  intros ee H. cbv zeta.
  assert (Hz : stored_rate (eeprom (exec setup (power_on ee))) = F32.zero).
  { unfold setup. rewrite !exec_bind_unit.
    rewrite setup_floatVar_installs by (rewrite setup_motors_eeprom; exact H).
    apply defaults_then_rest_zero_rate. }
  split; [ exact (setup_overwrites_nonzero_rate ee H) | ].
  split; [ exact Hz | ].
  rewrite setup_rate, Hz. reflexivity.
Qed.

Lemma setup_default_rate_not_stored_witness :
  F32.neqb (stored_rate erased_eeprom) (F32.of_Z 0) = true /\
  floatVar first_boot 0 = F32.dec 3700 2 /\
  stored_rate (eeprom first_boot) = F32.zero /\
  floatVar (exec setup (power_on (eeprom first_boot))) 0 = F32.zero.
Proof.
  assert (H : F32.neqb (stored_rate erased_eeprom) (F32.of_Z 0) = true) by reflexivity.
  split; [ exact H | exact (setup_default_rate_not_stored erased_eeprom H) ].
Defined.

(** ** The editor without the decimal-point key *)

Lemma LCDinput_display_reads (e : edit) :
  fold_left (fun e i => snd (rd_printVal i e)) (range 0 arrLen) e =
  mkEdit (decimalPos e) (printVal e) (printInt e) (cursorPos e)
    ((accesses e ++ [(false, 0)]) ++ [(false, 1)]).
Proof. reflexivity. Qed.

Lemma LCDinput_within (P sigFig : Z) (k : ascii) (e : edit) :
  3 <= P -> k <> "*"%char -> edit_within P e -> edit_within P (LCDinput k sigFig e).
Proof.
  intros HP Hk (Hc & Hp & Ha).
  apply Ascii.eqb_neq in Hk.
  unfold LCDinput. rewrite LCDinput_display_reads, Hk, orb_false_r.
  destruct (Ascii.eqb k "B"); [ | destruct (Ascii.eqb k "C"); [ | destruct (isDigit k) ] ].
  - cbn [set_cursorPos cursorPos printInt].
    split_ifs; bool_to_prop; unfold edit_within; cbn;
      (split; [ lia | split; [ lia | ] ]);
      intros a Hin; in_accesses; cbn; try lia; apply Ha; assumption.
  - cbn [set_cursorPos cursorPos printInt].
    split_ifs; bool_to_prop; unfold edit_within; cbn;
      (split; [ lia | split; [ lia | ] ]);
      intros a Hin; in_accesses; cbn; try lia; apply Ha; assumption.
  - unfold digit_key.
    cbn [set_cursorPos set_decimalPos set_printInt wr_printVal cursorPos printInt
           decimalPos accesses printVal].
    split_ifs; bool_to_prop; unfold edit_within;
      cbn [set_cursorPos set_decimalPos set_printInt wr_printVal cursorPos printInt
             decimalPos accesses printVal] in *;
      (split; [ lia | split; [ lia | ] ]);
      intros a Hin; in_accesses; cbn [snd]; try lia; apply Ha; assumption.
  - unfold edit_within; cbn. split; [ lia | split; [ lia | ] ].
    intros a Hin; in_accesses; cbn; try lia; apply Ha; assumption.
Qed.

(** X4.  As long as the decimal-point key is not used, the editor stays in
    its field: with a cursor and a cursor limit between 0 and [P] (3 or
    more) to begin with, after any series of digit, cursor and other keys
    the cursor is still between 0 and [P], and no subscript outside
    0..[P]+1 was applied to the buffer. *)
Theorem edit_session_within :
  forall (P sigFig : Z) (keys : list ascii) (e : edit),
    3 <= P ->
    ~ In "*"%char keys ->
    edit_within P e ->
    edit_within P (edit_session sigFig keys e).
Proof.
  intros P sigFig keys. unfold edit_session.
  induction keys as [ | k keys IH ]; intros e HP Hno He; cbn [fold_left].
  - exact He.
  - apply IH; [ exact HP | | ].
    + intro H. apply Hno. right. exact H.
    + apply LCDinput_within; [ exact HP | | exact He ].
      intro H. apply Hno. left. exact H.
Qed.

Lemma edit_session_within_witness :
  3 <= 3 /\
  ~ In "*"%char (list_ascii_of_string "12B3C45") /\
  edit_within 3 (mkEdit 0 (fun _ => zero) 0 0 []) /\
  edit_within 3 (edit_session 3 (list_ascii_of_string "12B3C45")
                   (mkEdit 0 (fun _ => zero) 0 0 [])).
Proof.
  assert (H1 : 3 <= 3) by lia.
  assert (H2 : ~ In "*"%char (list_ascii_of_string "12B3C45")).
  { cbn. intuition discriminate. }
  assert (H3 : edit_within 3 (mkEdit 0 (fun _ => zero) 0 0 [])).
  { unfold edit_within. cbn. split; [ lia | split; [ lia | intros a [] ] ]. }
  split; [ exact H1 | split; [ exact H2 | split; [ exact H3 | ] ] ].
  exact (edit_session_within 3 3 (list_ascii_of_string "12B3C45")
           (mkEdit 0 (fun _ => zero) 0 0 []) H1 H2 H3).
Defined.

(** X5.  The cursor keys undo each other and write nothing: with the
    cursor between 0 and the cursor limit, B then C, and C then B, bring
    the cursor back where it was, and B and C leave the buffer, the
    decimal position and the limit as they are. *)
Theorem cursor_keys_inverse :
  forall (sigFig : Z) (e : edit),
    0 <= cursorPos e <= printInt e ->
    cursorPos (LCDinput "C" sigFig (LCDinput "B" sigFig e)) = cursorPos e /\
    cursorPos (LCDinput "B" sigFig (LCDinput "C" sigFig e)) = cursorPos e /\
    (forall k, k = "B"%char \/ k = "C"%char ->
       printVal (LCDinput k sigFig e) = printVal e /\
       decimalPos (LCDinput k sigFig e) = decimalPos e /\
       printInt (LCDinput k sigFig e) = printInt e /\
       0 <= cursorPos (LCDinput k sigFig e) <= printInt e).
Proof.
  intros sigFig e Hc.
  split; [ | split ].
  - unfold LCDinput. rewrite !LCDinput_display_reads.
    cbn [Ascii.eqb Bool.eqb andb set_cursorPos cursorPos printInt].
    split_ifs; bool_to_prop; cbn [set_cursorPos cursorPos printInt] in *; lia.
  - unfold LCDinput. rewrite !LCDinput_display_reads.
    cbn [Ascii.eqb Bool.eqb andb set_cursorPos cursorPos printInt].
    split_ifs; bool_to_prop; cbn [set_cursorPos cursorPos printInt] in *; lia.
  - intros k [-> | ->]; unfold LCDinput; rewrite LCDinput_display_reads;
      cbn [Ascii.eqb Bool.eqb andb set_cursorPos cursorPos printInt];
      split_ifs; bool_to_prop; cbn; repeat split; lia.
Qed.

Lemma cursor_keys_inverse_witness :
  0 <= cursorPos (mkEdit 2 (fun _ => zero) 4 4 [])
    <= printInt (mkEdit 2 (fun _ => zero) 4 4 []) /\
  cursorPos (LCDinput "C" 2 (LCDinput "B" 2 (mkEdit 2 (fun _ => zero) 4 4 []))) = 4.
Proof.
  assert (H : 0 <= cursorPos (mkEdit 2 (fun _ => zero) 4 4 [])
              <= printInt (mkEdit 2 (fun _ => zero) 4 4 [])) by (cbn; lia).
  split; [ exact H | ].
  exact (proj1 (cursor_keys_inverse 2 (mkEdit 2 (fun _ => zero) 4 4 []) H)).
Defined.

(** ** Units2Pct *)

(** X6.  What [Units2Pct] returns, for every rate, scale and unit: a gear
    number between -2 and 10; with the marker -1 the duty 255, and then
    (and only then) the rate [floatVar[0]] is replaced by 27.855 times the
    scale; with the marker -2 the duty 64; with no gear (0) the duty 0.
    Nothing but [floatVar[0]] is changed. *)
Theorem Units2Pct_outcomes :
  forall (unitVal rateVal rateInt decimalPos : Z) (s : state),
    let r := Units2Pct unitVal rateVal rateInt decimalPos s in
    let d := motorVal_of (fst r) in
    let g := gearRatio_of (fst r) in
    -2 <= g <= 10 /\
    (g = -1 -> d = 255 /\
               floatVar (snd r) 0 = F32.mul (F32.dec 27855 3) (floatVar s 2)) /\
    (g = -2 -> d = 64) /\
    (g = 0 -> d = 0) /\
    (g <> -1 -> floatVar (snd r) = floatVar s) /\
    (forall i, i <> 0 -> floatVar (snd r) i = floatVar s i) /\
    channels_and_store (snd r) = channels_and_store s.
Proof.
  intros unitVal rateVal rateInt decimalPos s. cbv zeta.
  unfold Units2Pct, rd_floatVar, wr_floatVar, log, bind, get, modify, ret.
  cbn [fst snd floatVar set_trace].
  split_ifs;
    cbn [fst snd gearRatio_of motorVal_of nth floatVar set_floatVar set_trace];
    repeat match goal with
           | |- _ /\ _ => split
           | |- _ -> _ => intro
           | |- forall _, _ => intro
           end;
    try lia; try discriminate; try reflexivity; try congruence;
    match goal with
    | Hi : ?i <> 0 |- upd _ 0 _ ?i = _ =>
        unfold upd; apply Z.eqb_neq in Hi; rewrite Hi; reflexivity
    end.
Qed.

(** ** setTargetTime *)

Lemma setTargetTime_keeps_rest : keeps all_but_target setTargetTime.
Proof. unfold setTargetTime. keeps_all. Qed.

Lemma setTargetTime_target (s : state) :
  targetTime (tm (exec setTargetTime s)) =
  f2ulong
    (F32.mul
       (F32.div
          (if negb (flowStatus s 0 =? 0) then
             if flowStatus s 0 =? 1
             then F32.div (F32.mul (F32.of_Z (Z.quot (volFloat s) 100)) (F32.of_Z 1000))
                    (F32.of_Z 60)
             else F32.mul (F32.of_Z (Z.quot (volFloat s) 100)) (F32.of_Z 1000)
           else F32.of_Z (Z.quot (volFloat s) 100))
          (floatVar s 0))
       (F32.of_Z 60000)).
Proof.
  unfold setTargetTime, exec, rd_flowStatus, rd_floatVar, log, bind, get, modify, ret.
  cbn [fst snd flowStatus set_trace].
  destruct (flowStatus s 0 =? 0); [ reflexivity | ].
  cbn [negb]. cbn [fst snd flowStatus set_trace floatVar volFloat].
  reflexivity.
Qed.

(** X7.  [setTargetTime] changes the target time and nothing else, for
    every unit.  It knows two cases besides percent: unit 1, and all the
    others, so that the units 2 (microlitres per minute) and 3 (millilitres
    per minute) give the same target time for the same volume and rate. *)
Theorem setTargetTime_units_2_and_3 :
  forall (s : state) (u : Z),
    u <> 0 -> u <> 1 ->
    targetTime (tm (exec setTargetTime (with_unit u s)))
    = targetTime (tm (exec setTargetTime (with_unit 2 s))) /\
    all_but_target (exec setTargetTime s) = all_but_target s.
Proof.
  intros s u H0 H1. split.
  - rewrite !setTargetTime_target.
    unfold with_unit. cbn [flowStatus set_flowStatus volFloat floatVar].
    unfold upd. cbn [Z.eqb negb Pos.eqb].
    apply Z.eqb_neq in H0. apply Z.eqb_neq in H1. rewrite H0, H1. reflexivity.
  - exact (setTargetTime_keeps_rest s).
Qed.

Lemma setTargetTime_units_2_and_3_witness :
  3 <> 0 /\ 3 <> 1 /\
  targetTime (tm (exec setTargetTime (with_unit 3 first_boot)))
  = targetTime (tm (exec setTargetTime (with_unit 2 first_boot))).
Proof.
  assert (H0 : 3 <> 0) by lia.
  assert (H1 : 3 <> 1) by lia.
  split; [ exact H0 | split; [ exact H1 | ] ].
  exact (proj1 (setTargetTime_units_2_and_3 first_boot 3 H0 H1)).
Defined.

(** ** The run timer across the rollover of millis *)

Lemma elapsed_across_rollover (start e : Z) :
  0 <= e < 2 ^ 32 -> wrap_ulong (wrap_ulong (start + e) - start) = e.
Proof.
  intro He. unfold wrap_ulong.
  rewrite Zminus_mod_idemp_l.
  replace (start + e - start) with e by lia.
  apply Z.mod_small. exact He.
Qed.

(** X8.  The run timer measures the elapsed time right when [millis()]
    wraps round at 2^32: with the run started at [startTime] and [e]
    milliseconds gone by, the pass of [loop] finds the elapsed time [e]
    whatever the clock reads; before the target it leaves the motors as
    they are, from the target on it releases every configured motor and
    turns the timer off. *)
Theorem autostop_across_rollover :
  forall (s : state) (e : Z),
    timeCounter (tm s) = true ->
    0 <= e < 2 ^ 32 ->
    let now := wrap_ulong (startTime (tm s) + e) in
    let s' := exec (loop_autostop now) s in
    (e < targetTime (tm s) ->
     elapsedTime (tm s') = e /\ timeCounter (tm s') = true /\
     motor_run s' = motor_run s /\ motorStatus s' = motorStatus s) /\
    (targetTime (tm s) <= e ->
     timeCounter (tm s') = false /\
     forall i j, 0 <= i < nShields -> 0 <= j < nMotorsPerShield ->
                 motor_run s' i j = RELEASE).
Proof.
  intros s e Hc He. cbv zeta. split.
  - intro Hlt.
    rewrite (loop_autostop_early _ s Hc) by (rewrite elapsed_across_rollover; assumption).
    rewrite ticking_tm, ticking_motor_run, ticking_motorStatus.
    cbn [elapsedTime timeCounter].
    rewrite elapsed_across_rollover by exact He.
    repeat split.
  - intro Hge.
    rewrite (loop_autostop_expired _ s Hc) by (rewrite elapsed_across_rollover; assumption).
    rewrite stop_expired_run_tm, stop_expired_run_motor_run, ticking_motor_run.
    split; [ reflexivity | ].
    intros i j Hi Hj.
    destruct (configured_channel i j Hi Hj) as [-> [-> | ->]]; reflexivity.
Qed.

Lemma autostop_across_rollover_witness :
  timeCounter (tm (set_tm (mkTimers 4294967000 0 5000 0 true) first_boot)) = true /\
  0 <= 4000 < 2 ^ 32 /\
  elapsedTime
    (tm (exec (loop_autostop (wrap_ulong (4294967000 + 4000)))
           (set_tm (mkTimers 4294967000 0 5000 0 true) first_boot))) = 4000.
Proof.
  assert (H1 : timeCounter (tm (set_tm (mkTimers 4294967000 0 5000 0 true) first_boot))
               = true) by reflexivity.
  assert (H2 : 0 <= 4000 < 2 ^ 32) by lia.
  split; [ exact H1 | split; [ exact H2 | ] ].
  pose proof (autostop_across_rollover
                (set_tm (mkTimers 4294967000 0 5000 0 true) first_boot) 4000 H1 H2) as H.
  cbv zeta in H. destruct H as [H _].
  assert (H3 : 4000 < targetTime (tm (set_tm (mkTimers 4294967000 0 5000 0 true) first_boot)))
    by (cbn; lia).
  exact (proj1 (H H3)).
Defined.

(** ** What SetRate saves *)


Lemma SetRate_save_eeprom (s : state) :
  eeprom (exec SetRate_save s) =
  store_bytes
    (store_bytes
       (store_bytes (eeprom s) 0 (motorStatus_bytes (motorStatus s)))
       1 (bytes_of_float (floatVar s 0) ++ bytes_of_float (floatVar s 1)))
    2 (bytes_of_int (flowStatus s 0) ++ bytes_of_int (flowStatus s 1)).
Proof. reflexivity. Qed.



(** ** The loops of the screens *)

Lemma key_loop_returns {L : Type} (body : ascii -> L -> bool * L) (leave : ascii -> bool) :
  (forall k v, fst (body k v) = leave k) ->
  forall keys k v,
    key_loop body keys k v <> None <-> leave k = true \/ existsb leave keys = true.
Proof.
  intros Hb keys.
  induction keys as [ | k' keys IH ]; intros k v; cbn [key_loop existsb];
    pose proof (Hb k v) as Hk; destruct (body k v) as [menu v']; cbn [fst] in Hk;
    subst menu; destruct (leave k) eqn:E.
  - split; [ intros _; left; reflexivity | intros _; discriminate ].
  - split; [ intro H; exfalso; apply H; reflexivity | intros [H | H]; discriminate ].
  - split; [ intros _; left; reflexivity | intros _; discriminate ].
  - rewrite IH. rewrite orb_true_iff. split; [ intro H; right; exact H | ].
    intros [H | H]; [ discriminate | exact H ].
Qed.

Lemma key_loop_invariant {L : Type} (body : ascii -> L -> bool * L) (P : L -> Prop) :
  (forall k v, P v -> P (snd (body k v))) ->
  forall keys k v v' rest,
    P v -> key_loop body keys k v = Some (v', rest) -> P v'.
Proof.
  intros Hb keys.
  induction keys as [ | k' keys IH ]; intros k v v' rest Hv; cbn [key_loop];
    pose proof (Hb k v Hv) as Hk; destruct (body k v) as [[ | ] v1]; cbn [snd] in Hk;
    intro H; try discriminate.
  - injection H as <- _. exact Hk.
  - injection H as <- _. exact Hk.
  - exact (IH k' v1 v' rest Hk H).
Qed.

Lemma existsb_is_D (keys : list ascii) :
  existsb is_D keys = true <-> In "D"%char keys.
Proof.
  rewrite existsb_exists. unfold is_D. split.
  - intros [k [Hin Hk]]. apply Ascii.eqb_eq in Hk. subst k. exact Hin.
  - intro Hin. exists "D"%char. split; [ exact Hin | reflexivity ].
Qed.

Lemma key_loop_until_D {L : Type} (body : ascii -> L -> bool * L) :
  (forall k v, fst (body k v) = is_D k) ->
  forall keys k v,
    key_loop body keys k v <> None <-> In "D"%char (k :: keys).
Proof.
  intros Hb keys k v. rewrite (key_loop_returns body is_D Hb), existsb_is_D.
  cbn [In]. unfold is_D. rewrite Ascii.eqb_eq. split; intros [H | H]; auto.
Qed.

Lemma SetInfWith_body_leaves (k : ascii) (b : bool) :
  fst (SetInfWith_body k b) = is_D k.
Proof.
  unfold SetInfWith_body, is_D.
  destruct (Ascii.eqb k "B") eqn:EB; [ apply Ascii.eqb_eq in EB; subst k; reflexivity | ].
  destruct (Ascii.eqb k "C") eqn:EC; [ apply Ascii.eqb_eq in EC; subst k; reflexivity | ].
  cbn [orb]. destruct (Ascii.eqb k "D"); reflexivity.
Qed.

Lemma not_D_first (keys : list ascii) :
  In "D"%char (fst (getKey keys) :: snd (getKey keys)) <-> In "D"%char keys.
Proof.
  destruct keys as [ | k keys ]; cbn [getKey fst snd In]; [ | tauto ].
  split; [ intros [H | []]; discriminate | intros [] ].
Qed.

Section Screen_properties.

Variable atof : (Z -> ascii) -> float.
Variable dtostrf : float -> Z -> Z -> list ascii.
Variable strcmp : (Z -> ascii) -> string -> Z.
Variable junk_rate junk_diameter junk_volume : Z -> ascii.
Variable junk_DiaVal : Z -> ascii.
Variable junk_DiaInt : Z.
Variable rodata : Z -> ascii.
Variable address : DiaVal_target -> Z.

Lemma SetVolume_body_leaves (sigFig : Z) (k : ascii) (e : edit) :
  fst (SetVolume_body sigFig k e) = is_D k.
Proof.
  unfold SetVolume_body, is_D.
  destruct (Ascii.eqb k "D"); [ reflexivity | ].
  destruct (is_edit_key k); reflexivity.
Qed.

Lemma SetRate_body_leaves (k : ascii) (v : Z * edit * state) :
  fst (SetRate_body atof k v) = is_D k.
Proof.
  unfold SetRate_body, is_D. destruct v as [[u e] s].
  destruct (Ascii.eqb k "A") eqn:EA; [ apply Ascii.eqb_eq in EA; subst k; reflexivity | ].
  destruct (Ascii.eqb k "#") eqn:EH; [ apply Ascii.eqb_eq in EH; subst k; reflexivity | ].
  cbn [orb]. destruct (Ascii.eqb k "D"); [ reflexivity | ].
  destruct (is_edit_key k); reflexivity.
Qed.

Lemma SetDiameter_body_leaves (k : ascii) (v : Z * DiaVal_target * edit) :
  fst (SetDiameter_body k v) = is_D k.
Proof.
  unfold SetDiameter_body, is_D. destruct v as [[u p] e].
  destruct (Ascii.eqb k "B") eqn:EB; [ apply Ascii.eqb_eq in EB; subst k; reflexivity | ].
  destruct (Ascii.eqb k "#") eqn:EH; [ apply Ascii.eqb_eq in EH; subst k; reflexivity | ].
  cbn [orb].
  destruct (Ascii.eqb k "D") eqn:ED.
  - apply Ascii.eqb_eq in ED. subst k. cbn [isDigit]. 
    destruct (u =? 0); reflexivity.
  - destruct ((u =? 0) && (isDigit k || Ascii.eqb k "*")); reflexivity.
Qed.

Lemma SetRate_shape (keys : list ascii) (s : state) :
  exists motorSel motorVal u0 e0 s0,
    beyond_keypad s0 = beyond_keypad s /\
    SetRate atof dtostrf junk_rate keys s =
    match key_loop (SetRate_body atof) (tl keys) "A" (u0, e0, s0) with
    | None => None
    | Some ((u, e, s1), rest) =>
        Some (exec (SetRate_finish motorSel motorVal u e) s1, rest)
    end.
Proof.
  unfold SetRate, rd_flowStatus, rd_motorStatus, rd_floatVar, log, bind, get, modify, ret.
  destruct keys as [ | k0 keys ]; cbn [getKey fst snd tl];
    do 5 eexists; (split; [ | reflexivity ]); reflexivity.
Qed.

(** X10.  A screen returns exactly when the key D is among the scans it
    reads: nothing else ends it, and there is no time limit.  [SetVolume] acts
    on the scan it takes on entry; the other three screens discard that scan
    (they overwrite [keypressed] before the loop), so that a D there does not
    count. *)
Theorem screens_return_on_D :
  forall (keys : list ascii) (s : state) (InfWith : bool),
    (SetVolume atof dtostrf strcmp junk_volume keys s <> None <-> In "D"%char keys) /\
    (SetRate atof dtostrf junk_rate keys s <> None <-> In "D"%char (tl keys)) /\
    (SetDiameter atof junk_diameter junk_DiaVal junk_DiaInt rodata address keys s <> None
     <-> In "D"%char (tl keys)) /\
    (SetInfWith keys InfWith <> None <-> In "D"%char (tl keys)).
Proof.
  intros keys s InfWith.
  assert (Htl : snd (getKey keys) = tl keys) by (destruct keys; reflexivity).
  assert (Hnot : forall (k : ascii) l, is_D k = false ->
                   (In "D"%char (k :: l) <-> In "D"%char l)).
  { intros k l Hk. cbn [In]. split; [ intros [H | H] | auto ]; [ | exact H ].
    subst k. discriminate. }
  repeat split.
  - unfold SetVolume. destruct (getKey keys) as [k0 keys0] eqn:E. cbv zeta.
    match goal with
    | |- match key_loop ?b ?ks ?k ?v with _ => _ end <> None -> _ =>
        intro H; apply not_D_first; rewrite E; cbn [fst snd];
        apply (key_loop_until_D b (SetVolume_body_leaves 2) ks k v);
        destruct (key_loop b ks k v) as [[e1 r1] | ];
        [ discriminate | exfalso; apply H; reflexivity ]
    end.
  - unfold SetVolume. destruct (getKey keys) as [k0 keys0] eqn:E. cbv zeta.
    intro H. apply not_D_first in H. rewrite E in H. cbn [fst snd] in H.
    match goal with
    | |- match key_loop ?b ?ks ?k ?v with _ => _ end <> None =>
        apply (key_loop_until_D b (SetVolume_body_leaves 2) ks k v) in H;
        destruct (key_loop b ks k v) as [[e1 r1] | ];
        [ discriminate | exfalso; apply H; reflexivity ]
    end.
  - destruct (SetRate_shape keys s) as (motorSel & motorVal & u0 & e0 & s0 & _ & ->).
    match goal with
    | |- context [key_loop ?b ?ks ?k ?v] =>
        intro H; apply (Hnot k ks eq_refl);
        apply (key_loop_until_D b SetRate_body_leaves ks k v);
        destruct (key_loop b ks k v) as [[[[u1 e1] s1] r1] | ];
        [ discriminate | exfalso; apply H; reflexivity ]
    end.
  - destruct (SetRate_shape keys s) as (motorSel & motorVal & u0 & e0 & s0 & _ & ->).
    intro H.
    match goal with
    | |- context [key_loop ?b ?ks ?k ?v] =>
        apply (Hnot k ks eq_refl) in H;
        apply (key_loop_until_D b SetRate_body_leaves ks k v) in H;
        destruct (key_loop b ks k v) as [[[[u1 e1] s1] r1] | ];
        [ discriminate | exfalso; apply H; reflexivity ]
    end.
  - unfold SetDiameter. rewrite <- Htl. destruct (getKey keys) as [k0 keys0]. cbn [snd].
    cbv zeta.
    match goal with
    | |- context [key_loop ?b ?ks ?k ?v] =>
        intro H; apply (Hnot k ks eq_refl);
        apply (key_loop_until_D b SetDiameter_body_leaves ks k v);
        destruct (key_loop b ks k v) as [[[[u1 p1] e1] r1] | ];
        [ discriminate | exfalso; apply H; reflexivity ]
    end.
  - unfold SetDiameter. rewrite <- Htl. destruct (getKey keys) as [k0 keys0]. cbn [snd].
    cbv zeta. intro H.
    match goal with
    | |- context [key_loop ?b ?ks ?k ?v] =>
        apply (Hnot k ks eq_refl) in H;
        apply (key_loop_until_D b SetDiameter_body_leaves ks k v) in H;
        destruct (key_loop b ks k v) as [[[[u1 p1] e1] r1] | ];
        [ discriminate | exfalso; apply H; reflexivity ]
    end.
  - unfold SetInfWith. rewrite <- Htl. destruct (getKey keys) as [k0 keys0]. cbn [snd].
    intro H. apply (Hnot "B"%char keys0 eq_refl).
    apply (key_loop_until_D _ SetInfWith_body_leaves keys0 "B"%char InfWith). exact H.
  - unfold SetInfWith. rewrite <- Htl. destruct (getKey keys) as [k0 keys0]. cbn [snd].
    intro H. apply (Hnot "B"%char keys0 eq_refl) in H.
    apply (key_loop_until_D _ SetInfWith_body_leaves keys0 "B"%char InfWith) in H. exact H.
Qed.

End Screen_properties.

(** ** SetInfWith *)

Lemma SetInfWith_loop_parity (post : list ascii) :
  forall (pre : list ascii) (k : ascii) (b : bool),
    is_D k = false -> ~ In "D"%char pre ->
    key_loop SetInfWith_body (pre ++ "D"%char :: post) k b
    = Some (if Nat.even (List.length (filter is_B_or_C (k :: pre))) then b else negb b,
            tl post).
Proof.
  assert (Hbody : forall k b, is_D k = false ->
            SetInfWith_body k b = (false, if is_B_or_C k then negb b else b)).
  { intros k b Hk. unfold SetInfWith_body, is_B_or_C. unfold is_D in Hk.
    destruct (Ascii.eqb k "B" || Ascii.eqb k "C"); [ reflexivity | ].
    rewrite Hk. reflexivity. }
  induction pre as [ | k' pre IH ]; intros k b Hk Hpre.
  - cbn [app key_loop]. rewrite (Hbody k b Hk). cbn [filter].
    destruct post as [ | k1 post ], (is_B_or_C k), b; reflexivity.
  - cbn [app key_loop]. rewrite (Hbody k b Hk).
    assert (Hk' : is_D k' = false).
    { unfold is_D. apply not_true_is_false. intro E. apply Ascii.eqb_eq in E.
      apply Hpre. left. exact E. }
    rewrite (IH k' _ Hk' (fun H => Hpre (or_intror H))).
    f_equal. f_equal.
    cbn [filter]. destruct (is_B_or_C k) eqn:Ek.
    + cbn [List.length]. rewrite Nat.even_succ, <- Nat.negb_even.
      match goal with |- context [Nat.even ?n] => destruct (Nat.even n), b end;
        reflexivity.
    + reflexivity.
Qed.

(** X11.  [SetInfWith] changes direction once on entry (it sets
    [keypressed] to B before its loop) and once more for every B or C read
    before the D that ends it: with an even number of them the direction has
    changed when the screen returns, with an odd number it is what it was.  The
    scan taken on entry is discarded, and one scan after the D is consumed. *)
Theorem SetInfWith_direction :
  forall (k0 : ascii) (pre post : list ascii) (InfWith : bool),
    ~ In "D"%char pre ->
    SetInfWith (k0 :: pre ++ "D"%char :: post) InfWith
    = Some (if Nat.even (List.length (filter is_B_or_C pre)) then negb InfWith else InfWith,
            tl post).
Proof.
  intros k0 pre post b Hpre. unfold SetInfWith. cbn [getKey].
  rewrite (SetInfWith_loop_parity post pre "B"%char b eq_refl Hpre).
  cbn [filter is_B_or_C Ascii.eqb orb Bool.eqb andb List.length].
  rewrite Nat.even_succ, <- Nat.negb_even.
  destruct (Nat.even (List.length (filter is_B_or_C pre))); reflexivity.
Qed.

Lemma SetInfWith_direction_witness :
  ~ In "D"%char ["C"; "1"; "B"]%char /\
  SetInfWith ("A" :: ["C"; "1"; "B"] ++ "D" :: ["5"; "6"])%char false
  = Some (true, ["6"%char]).
Proof.
  assert (H : ~ In "D"%char ["C"; "1"; "B"]%char).
  { intros [H | [H | [H | []]]]; discriminate. }
  split; [ exact H | ].
  exact (SetInfWith_direction "A"%char ["C"; "1"; "B"]%char ["5"; "6"]%char false H).
Defined.

(** ** SetDiameter *)

Section Diameter_properties.

Variable atof : (Z -> ascii) -> float.
Variable junk_diameter junk_DiaVal : Z -> ascii.
Variable junk_DiaInt : Z.
Variable rodata : Z -> ascii.
Variable address : DiaVal_target -> Z.


End Diameter_properties.


(** ** MenuUI *)

Section Menu_properties.

Variable atof : (Z -> ascii) -> float.
Variable dtostrf : float -> Z -> Z -> list ascii.
Variable strcmp : (Z -> ascii) -> string -> Z.
Variable junk_rate junk_diameter junk_volume : Z -> ascii.
Variable junk_DiaVal : Z -> ascii.
Variable junk_DiaInt : Z.
Variable rodata : Z -> ascii.
Variable address : DiaVal_target -> Z.

Local Abbreviation the_screen :=
  (run_screen atof dtostrf strcmp junk_rate junk_diameter junk_volume
     junk_DiaVal junk_DiaInt rodata address).
Local Abbreviation the_menu_loop :=
  (MenuUI_loop atof dtostrf strcmp junk_rate junk_diameter junk_volume
     junk_DiaVal junk_DiaInt rodata address).
Local Abbreviation the_menu :=
  (MenuUI atof dtostrf strcmp junk_rate junk_diameter junk_volume
     junk_DiaVal junk_DiaInt rodata address).

Lemma MenuUI_loop_eq (keys : list ascii) (keypressed : ascii) (MenuChoice : Z)
    (m : machine) :
  the_menu_loop keys keypressed MenuChoice m =
  let MenuChoice := menu_move keypressed MenuChoice in
  let continue (m : machine) :=
    if Ascii.eqb keypressed "#" || Ascii.eqb keypressed "D"
    then Some (m, snd (getKey keys))
    else match keys with
         | [] => None
         | k :: rest => the_menu_loop rest k MenuChoice m
         end in
  if Ascii.eqb keypressed "A" then
    match the_screen MenuChoice keys m with
    | Some None => None
    | Some (Some (m', keys')) => Some (m', snd (getKey keys'))
    | None => continue m
    end
  else continue m.
Proof. destruct keys; reflexivity. Qed.

Lemma run_screen_defined (c : Z) (keys : list ascii) (m : machine) :
  0 <= c <= 3 -> the_screen c keys m <> None.
Proof.
  intro Hc. unfold run_screen. destruct m as [s b].
  assert (H : c = 0 \/ c = 1 \/ c = 2 \/ c = 3) by lia.
  destruct H as [-> | [-> | [-> | ->]]]; cbn [Z.eqb Pos.eqb]; discriminate.
Qed.

Lemma menu_move_B (c : Z) : 0 <= c <= 3 ->
  0 <= menu_move "B" c <= 3 /\ menu_move "B" c mod 4 = (c + 1) mod 4.
Proof.
  intro Hc. assert (H : c = 0 \/ c = 1 \/ c = 2 \/ c = 3) by lia.
  destruct H as [-> | [-> | [-> | ->]]]; vm_compute; intuition discriminate.
Qed.

Lemma menu_move_C (c : Z) : 0 <= c <= 3 ->
  0 <= menu_move "C" c <= 3 /\ menu_move "C" c mod 4 = (c - 1) mod 4.
Proof.
  intro Hc. assert (H : c = 0 \/ c = 1 \/ c = 2 \/ c = 3) by lia.
  destruct H as [-> | [-> | [-> | ->]]]; vm_compute; intuition discriminate.
Qed.

Lemma MenuUI_loop_navigate (keys : list ascii) (m : machine) :
  forall (nav : list ascii) (c : Z),
    0 <= c <= 3 ->
    Forall (fun k => is_B_or_C k = true) nav ->
    the_menu_loop (tl (nav ++ "A"%char :: keys)) (hd "A"%char (nav ++ "A"%char :: keys)) c m
    = leave_menu (the_screen ((c + menu_steps nav) mod 4) keys m).
Proof.
  induction nav as [ | k nav IH ]; intros c Hc Hnav.
  - cbn [app tl hd menu_steps]. rewrite MenuUI_loop_eq. cbv zeta.
    cbn [Ascii.eqb Bool.eqb andb menu_move].
    rewrite Z.add_0_r, (Z.mod_small c 4) by lia.
    pose proof (run_screen_defined c keys m Hc) as Hd.
    destruct (the_screen c keys m) as [[[m' r] | ] | ];
      [ reflexivity | reflexivity | exfalso; apply Hd; reflexivity ].
  - inversion Hnav as [ | k' nav' Hk Hnav' ]; subst k' nav'.
    cbn [app tl hd]. rewrite MenuUI_loop_eq. cbv zeta.
    assert (Hmove : 0 <= menu_move k c <= 3 /\
                    menu_move k c mod 4 = (c + menu_steps [k]) mod 4 /\
                    Ascii.eqb k "A" = false /\ Ascii.eqb k "#" = false /\
                    Ascii.eqb k "D" = false).
    { unfold is_B_or_C in Hk. apply orb_true_iff in Hk.
      destruct Hk as [Hk | Hk]; apply Ascii.eqb_eq in Hk; subst k;
        [ destruct (menu_move_B c Hc) as [H1 H2]
        | destruct (menu_move_C c Hc) as [H1 H2] ];
        (split; [ exact H1 | split; [ | repeat split ] ]);
        rewrite H2; reflexivity. }
    destruct Hmove as (Hr & Hmod & -> & -> & ->). cbn [orb].
    specialize (IH (menu_move k c) Hr Hnav').
    replace ((c + menu_steps (k :: nav)) mod 4)
      with ((menu_move k c + menu_steps nav) mod 4).
    + destruct nav as [ | k1 nav ]; exact IH.
    + rewrite Z.add_mod, Hmod, <- Z.add_mod by lia.
      f_equal. cbn [menu_steps]. lia.
Qed.

(** X13.  In the menu every B moves one item on and every C one item
    back, round the four items; the A that follows opens the screen of the item
    reached, whatever the number of B and C before it.  The menu is left when
    that screen returns, after one more scan. *)
Theorem MenuUI_opens_selected :
  forall (nav keys : list ascii) (m : machine),
    Forall (fun k => is_B_or_C k = true) nav ->
    the_menu (nav ++ "A"%char :: keys) m
    = leave_menu (the_screen (menu_steps nav mod 4) keys m).
Proof.
  intros nav keys m Hnav. unfold MenuUI.
  pose proof (MenuUI_loop_navigate keys m nav 0 ltac:(lia) Hnav) as H.
  rewrite Z.add_0_l in H.
  destruct nav as [ | k nav ]; exact H.
Qed.

Lemma MenuUI_loop_unselected (m : machine) :
  forall (keys : list ascii) (k : ascii) (c : Z),
    Ascii.eqb k "A" = false -> ~ In "A"%char keys ->
    (the_menu_loop keys k c m <> None <->
     In "#"%char (k :: keys) \/ In "D"%char (k :: keys)) /\
    forall m' rest, the_menu_loop keys k c m = Some (m', rest) -> m' = m.
Proof.
  induction keys as [ | k1 keys IH ]; intros k c Hk Hkeys;
    rewrite MenuUI_loop_eq; cbv zeta; rewrite Hk.
  - destruct (Ascii.eqb k "#") eqn:E1; [ | destruct (Ascii.eqb k "D") eqn:E2 ];
      cbn [orb In].
    + apply Ascii.eqb_eq in E1. split; [ | intros m' rest [= <- _]; reflexivity ].
      split; [ intros _; left; left; exact E1 | discriminate ].
    + apply Ascii.eqb_eq in E2. split; [ | intros m' rest [= <- _]; reflexivity ].
      split; [ intros _; right; left; exact E2 | discriminate ].
    + apply Ascii.eqb_neq in E1, E2. split; [ | discriminate ].
      split; [ intro H; exfalso; apply H; reflexivity | ].
      intros [[H | []] | [H | []]]; congruence.
  - assert (Hk1 : Ascii.eqb k1 "A" = false).
    { apply Ascii.eqb_neq. intro E. apply Hkeys. left. exact E. }
    destruct (IH k1 (menu_move k c) Hk1 (fun H => Hkeys (or_intror H))) as [IH1 IH2].
    destruct (Ascii.eqb k "#") eqn:E1; [ | destruct (Ascii.eqb k "D") eqn:E2 ];
      cbn [orb].
    + apply Ascii.eqb_eq in E1. split; [ | intros m' rest [= <- _]; reflexivity ].
      split; [ intros _; left; left; exact E1 | discriminate ].
    + apply Ascii.eqb_eq in E2. split; [ | intros m' rest [= <- _]; reflexivity ].
      split; [ intros _; right; left; exact E2 | discriminate ].
    + apply Ascii.eqb_neq in E1, E2. split; [ | exact IH2 ].
      rewrite IH1. cbn [In]. split.
      * intros [H | H]; [ left | right ]; right; exact H.
      * intros [[H | H] | [H | H]]; try congruence; [ left | right ]; exact H.
Qed.

(** X14.  As long as A is not pressed the menu changes nothing: it is
    left by # or D, and by nothing else, with the state and the direction as
    they were on entry. *)
Theorem MenuUI_without_A :
  forall (keys : list ascii) (m : machine),
    ~ In "A"%char keys ->
    (the_menu keys m <> None <-> In "#"%char keys \/ In "D"%char keys) /\
    forall m' rest, the_menu keys m = Some (m', rest) -> m' = m.
Proof.
  intros keys m Hkeys. unfold MenuUI.
  destruct keys as [ | k keys ]; cbn [getKey].
  - destruct (MenuUI_loop_unselected m [] NO_KEY 0 eq_refl Hkeys) as [H1 H2].
    split; [ | exact H2 ]. rewrite H1. cbn [In].
    split; [ intros [[H | []] | [H | []]]; discriminate | intros [[] | []] ].
  - assert (Hk : Ascii.eqb k "A" = false).
    { apply Ascii.eqb_neq. intro E. apply Hkeys. left. exact E. }
    exact (MenuUI_loop_unselected m keys k 0 Hk (fun H => Hkeys (or_intror H))).
Qed.

End Menu_properties.

(** ** The compiled loop: the motors and the serial line *)

Section Compiled_loop.

Variable atof : (Z -> ascii) -> float.
Variable dtostrf : float -> Z -> Z -> list ascii.
Variable strcmp : (Z -> ascii) -> string -> Z.
Variable junk_rate junk_diameter junk_volume : Z -> ascii.
Variable junk_DiaVal : Z -> ascii.
Variable junk_DiaInt : Z.
Variable rodata : Z -> ascii.
Variable address : DiaVal_target -> Z.

Local Abbreviation the_screen :=
  (run_screen atof dtostrf strcmp junk_rate junk_diameter junk_volume
     junk_DiaVal junk_DiaInt rodata address).
Local Abbreviation the_menu_loop :=
  (MenuUI_loop atof dtostrf strcmp junk_rate junk_diameter junk_volume
     junk_DiaVal junk_DiaInt rodata address).
Local Abbreviation the_menu :=
  (MenuUI atof dtostrf strcmp junk_rate junk_diameter junk_volume
     junk_DiaVal junk_DiaInt rodata address).
Local Abbreviation the_loop :=
  (loop atof dtostrf strcmp junk_rate junk_diameter junk_volume
     junk_DiaVal junk_DiaInt rodata address).
Local Abbreviation the_loops :=
  (loops atof dtostrf strcmp junk_rate junk_diameter junk_volume
     junk_DiaVal junk_DiaInt rodata address).

Lemma SetRate_finish_keeps_beyond_keypad (motorSel motorVal unitVal : Z) (e : edit) :
  keeps beyond_keypad (SetRate_finish motorSel motorVal unitVal e).
Proof.
  unfold SetRate_finish, SetRate_save.
  apply keeps_bind; [ | intro ].
  - destruct (unitVal =? 0); [ keeps_all | ].
    apply keeps_bind; [ apply Units2Pct_keeps_beyond_keypad | intro; apply keeps_ret ].
  - apply keeps_bind; [ intro; reflexivity | intros _ ].
    apply keeps_bind; [ intro; reflexivity | intros _ ].
    apply keeps_bind; [ apply setTargetTime_keeps_beyond_keypad | intros _ ].
    keeps_all.
Qed.

Lemma SetRate_body_keeps_beyond_keypad (s0 : state) (k : ascii) (v : Z * edit * state) :
  beyond_keypad (snd v) = beyond_keypad s0 ->
  beyond_keypad (snd (snd (SetRate_body atof k v))) = beyond_keypad s0.
Proof.
  destruct v as [[u e] s]. cbn [snd]. intro H. unfold SetRate_body.
  destruct (Ascii.eqb k "A" || Ascii.eqb k "#"); [ exact H | ].
  destruct (Ascii.eqb k "D"); [ exact H | ].
  destruct (is_edit_key k); [ | exact H ].
  cbn [snd]. rewrite <- H. reflexivity.
Qed.

Lemma SetRate_keeps_beyond_keypad (keys : list ascii) (s s' : state) (rest : list ascii) :
  SetRate atof dtostrf junk_rate keys s = Some (s', rest) ->
  beyond_keypad s' = beyond_keypad s.
Proof.
  destruct (SetRate_shape atof dtostrf junk_rate keys s)
    as (motorSel & motorVal & u0 & e0 & s0 & H0 & ->).
  destruct (key_loop (SetRate_body atof) (tl keys) "A" (u0, e0, s0))
    as [[[[u1 e1] s1] r1] | ] eqn:E; [ | discriminate ].
  intros [= <- _].
  rewrite (keeps_exec beyond_keypad _ s1
             (SetRate_finish_keeps_beyond_keypad motorSel motorVal u1 e1)).
  rewrite <- H0.
  exact (key_loop_invariant (SetRate_body atof)
           (fun v => beyond_keypad (snd v) = beyond_keypad s0)
           (SetRate_body_keeps_beyond_keypad s0) (tl keys) "A"%char (u0, e0, s0)
           (u1, e1, s1) r1 eq_refl E).
Qed.

Lemma SetVolume_keeps_beyond_keypad (keys : list ascii) (s s' : state) (rest : list ascii) :
  SetVolume atof dtostrf strcmp junk_volume keys s = Some (s', rest) ->
  beyond_keypad s' = beyond_keypad s.
Proof.
  unfold SetVolume. destruct (getKey keys) as [k0 keys0]. cbv zeta.
  match goal with
  | |- context [key_loop ?b ?ks ?k ?v] =>
      destruct (key_loop b ks k v) as [[e1 r1] | ]; [ | discriminate ]
  end.
  intros [= <- _].
  match goal with
  | |- beyond_keypad (exec ?m ?s1) = _ =>
      assert (Hm : keeps beyond_keypad m)
        by (apply keeps_bind; [ intro; reflexivity | intros _ ];
            apply keeps_bind; [ intro; reflexivity | intros _ ];
            apply setTargetTime_keeps_beyond_keypad);
      rewrite (keeps_exec beyond_keypad m s1 Hm)
  end.
  reflexivity.
Qed.

Lemma SetDiameter_keeps_beyond_keypad (keys : list ascii) (s s' : state) (rest : list ascii) :
  SetDiameter atof junk_diameter junk_DiaVal junk_DiaInt rodata address keys s
  = Some (s', rest) ->
  beyond_keypad s' = beyond_keypad s.
Proof.
  unfold SetDiameter. destruct (getKey keys) as [k0 keys0]. cbv zeta.
  match goal with
  | |- context [key_loop ?b ?ks ?k ?v] =>
      destruct (key_loop b ks k v) as [[[[u1 p1] e1] r1] | ]; [ | discriminate ]
  end.
  intros [= <- _]. reflexivity.
Qed.

Lemma run_screen_keeps_beyond_keypad (c : Z) (keys : list ascii) (m m' : machine)
    (rest : list ascii) :
  the_screen c keys m = Some (Some (m', rest)) ->
  beyond_keypad (fst m') = beyond_keypad (fst m).
Proof.
  unfold run_screen. destruct m as [s b]. cbn [fst].
  destruct (c =? 0).
  { destruct (SetRate atof dtostrf junk_rate keys s) as [[s1 r1] | ] eqn:E;
      cbn [option_map fst snd]; intros [= <- _]; cbn [fst].
    exact (SetRate_keeps_beyond_keypad keys s s1 r1 E). }
  destruct (c =? 1).
  { destruct (SetDiameter atof junk_diameter junk_DiaVal junk_DiaInt rodata address keys s)
      as [[s1 r1] | ] eqn:E; cbn [option_map fst snd]; intros [= <- _]; cbn [fst].
    exact (SetDiameter_keeps_beyond_keypad keys s s1 r1 E). }
  destruct (c =? 2).
  { destruct (SetInfWith keys b) as [[b1 r1] | ];
      cbn [option_map fst snd]; intros [= <- _]; reflexivity. }
  destruct (c =? 3); [ | discriminate ].
  destruct (SetVolume atof dtostrf strcmp junk_volume keys s) as [[s1 r1] | ] eqn:E;
    cbn [option_map fst snd]; intros [= <- _]; cbn [fst].
  exact (SetVolume_keeps_beyond_keypad keys s s1 r1 E).
Qed.

Lemma MenuUI_loop_keeps_beyond_keypad (m : machine) :
  forall (keys : list ascii) (k : ascii) (c : Z) (m' : machine) (rest : list ascii),
    the_menu_loop keys k c m = Some (m', rest) ->
    beyond_keypad (fst m') = beyond_keypad (fst m).
Proof.
  assert (Hstep : forall keys k c m' rest,
    (forall k1 r1, keys = k1 :: r1 ->
       the_menu_loop r1 k1 (menu_move k c) m = Some (m', rest) ->
       beyond_keypad (fst m') = beyond_keypad (fst m)) ->
    the_menu_loop keys k c m = Some (m', rest) ->
    beyond_keypad (fst m') = beyond_keypad (fst m)).
  { intros keys k c m' rest IH. rewrite (MenuUI_loop_eq atof dtostrf strcmp junk_rate
      junk_diameter junk_volume junk_DiaVal junk_DiaInt rodata address). cbv zeta.
    assert (Hcont :
      (if Ascii.eqb k "#" || Ascii.eqb k "D"
       then Some (m, snd (getKey keys))
       else match keys with
            | [] => None
            | k1 :: r1 => the_menu_loop r1 k1 (menu_move k c) m
            end) = Some (m', rest) -> beyond_keypad (fst m') = beyond_keypad (fst m)).
    { destruct (Ascii.eqb k "#" || Ascii.eqb k "D").
      - intros [= <- _]. reflexivity.
      - destruct keys as [ | k1 r1 ]; [ discriminate | ]. exact (IH k1 r1 eq_refl). }
    destruct (Ascii.eqb k "A"); [ | exact Hcont ].
    destruct (the_screen (menu_move k c) keys m) as [[[m1 r1] | ] | ] eqn:E;
      [ | discriminate | exact Hcont ].
    intros [= <- _]. exact (run_screen_keeps_beyond_keypad _ keys m m1 r1 E). }
  induction keys as [ | k1 keys IH ]; intros k c m' rest; apply Hstep.
  - intros k2 r2 H. discriminate.
  - intros k2 r2 [= <- <-]. apply IH.
Qed.

Lemma loop_keeps_beyond_keypad (now : Z) (keys : list ascii) (m m' : machine)
    (rest : list ascii) :
  timeCounter (tm (fst m)) = false ->
  the_loop now keys m = Some (m', rest) ->
  beyond_keypad (fst m') = beyond_keypad (fst m).
Proof.
  intro Hidle. unfold loop. destruct (getKey keys) as [k keys0].
  rewrite (loop_autostop_idle now (fst m) Hidle).
  destruct (Ascii.eqb k "A").
  - unfold MenuUI. destruct (getKey keys0) as [k1 keys1]. intro H.
    exact (MenuUI_loop_keeps_beyond_keypad (fst m, snd m) keys1 k1 0 m' rest H).
  - intros [= <- _]. reflexivity.
Qed.






Lemma loops_keep_beyond_keypad :
  forall (nows : list Z) (keys : list ascii) (s : state) (b : bool) (m' : machine)
         (rest : list ascii),
    timeCounter (tm s) = false ->
    the_loops nows keys (s, b) = Some (m', rest) ->
    beyond_keypad (fst m') = beyond_keypad s.
Proof.
  induction nows as [ | now nows IH ]; intros keys s b m' rest Hidle; cbn [loops].
  - intros [= <- _]. reflexivity.
  - destruct (the_loop now keys (s, b)) as [[[s1 b1] keys1] | ] eqn:E; [ | discriminate ].
    pose proof (loop_keeps_beyond_keypad now keys (s, b) (s1, b1) keys1 Hidle E) as H1.
    cbn [fst] in H1.
    intro H. rewrite <- H1. apply (IH keys1 s1 b1 m' rest); [ | exact H ].
    unfold beyond_keypad in H1. injection H1 as _ _ Ht _. rewrite Ht. exact Hidle.
Qed.

Lemma setup_motor_run (s : state) : motor_run (exec setup s) = motor_run s.
Proof.
  assert (H : keeps motor_run setup).
  { unfold setup, setup_motors, setup_floatVar, setup_flowStatus, setup_volFloat.
    keeps_all. }
  exact (H s).
Qed.

Lemma setup_timer_off (s : state) :
  timeCounter (tm s) = false -> timeCounter (tm (exec setup s)) = false.
Proof. intro H. rewrite <- H. exact (setup_keeps_timer s). Qed.

(** X15.  The firmware as it is compiled never starts a motor.  From any
    stored content, [setup] and then any number of passes of [loop], whatever
    the clock says and whatever is pressed on the keypad, leave every motor
    released, the run timer off, and the motor speeds as [setup] set them: the
    only call of [run] is the release of the auto-stop, which needs the timer
    that nothing compiled turns on. *)
Theorem compiled_loop_never_runs_motor :
  forall (ee : Z -> Z) (InfWith : bool) (nows : list Z) (keys : list ascii)
         (m' : machine) (rest : list ascii),
    the_loops nows keys (exec setup (power_on ee), InfWith) = Some (m', rest) ->
    (forall i j, motor_run (fst m') i j = RELEASE) /\
    timeCounter (tm (fst m')) = false /\
    motor_speed (fst m') = motor_speed (exec setup (power_on ee)).
Proof.
  intros ee b nows keys m' rest H.
  pose proof (setup_timer_off (power_on ee) eq_refl) as Ht.
  pose proof (loops_keep_beyond_keypad nows keys _ b m' rest Ht H) as Hm.
  unfold beyond_keypad in Hm. injection Hm as Hr Hs Hc _.
  split; [ | split ].
  - intros i j. rewrite Hr, setup_motor_run. reflexivity.
  - rewrite Hc. exact Ht.
  - exact Hs.
Qed.

End Compiled_loop.



(** ** Closed examples *)

(** A C library and a stack for the examples: [atof] gives 0.0, [dtostrf]
    writes nothing, [strcmp] gives 0, and the memory holds zeros. *)
Local Abbreviation example_menu :=
  (MenuUI (fun _ => F32.zero) (fun _ _ _ => []) (fun _ _ => 0) (fun _ => zero)
     (fun _ => zero) (fun _ => zero) (fun _ => zero) 0 (fun _ => zero) (fun _ => 0)).
Local Abbreviation example_screen :=
  (run_screen (fun _ => F32.zero) (fun _ _ _ => []) (fun _ _ => 0) (fun _ => zero)
     (fun _ => zero) (fun _ => zero) (fun _ => zero) 0 (fun _ => zero) (fun _ => 0)).
Local Abbreviation example_loops :=
  (loops (fun _ => F32.zero) (fun _ _ _ => []) (fun _ _ => 0) (fun _ => zero)
     (fun _ => zero) (fun _ => zero) (fun _ => zero) 0 (fun _ => zero) (fun _ => 0)).

Lemma MenuUI_opens_selected_witness :
  Forall (fun k => is_B_or_C k = true) ["B"; "B"; "C"]%char /\
  example_menu (["B"; "B"; "C"] ++ "A" :: ["D"])%char (first_boot, false)
  = leave_menu (example_screen (menu_steps ["B"; "B"; "C"]%char mod 4) ["D"%char]
                  (first_boot, false)).
Proof.
  assert (H : Forall (fun k => is_B_or_C k = true) ["B"; "B"; "C"]%char)
    by (repeat constructor).
  split; [ exact H | ].
  exact (MenuUI_opens_selected (fun _ => F32.zero) (fun _ _ _ => []) (fun _ _ => 0)
           (fun _ => zero) (fun _ => zero) (fun _ => zero) (fun _ => zero) 0
           (fun _ => zero) (fun _ => 0) ["B"; "B"; "C"]%char ["D"%char]
           (first_boot, false) H).
Defined.

Lemma MenuUI_without_A_witness :
  ~ In "A"%char ["B"; "#"]%char /\
  example_menu ["B"; "#"]%char (first_boot, false) <> None.
Proof.
  assert (H : ~ In "A"%char ["B"; "#"]%char).
  { intros [H | [H | []]]; discriminate. }
  split; [ exact H | ].
  apply (proj1 (MenuUI_without_A (fun _ => F32.zero) (fun _ _ _ => []) (fun _ _ => 0)
                  (fun _ => zero) (fun _ => zero) (fun _ => zero) (fun _ => zero) 0
                  (fun _ => zero) (fun _ => 0) ["B"; "#"]%char (first_boot, false) H)).
  left. right. left. reflexivity.
Defined.

(** Two passes of [loop] after a first boot: in the first one the menu is
    opened, moved to the diameter screen, and the screen entered and left. *)
Lemma compiled_loop_never_runs_motor_witness :
  match example_loops [0; 10] ["A"; "B"; "A"; NO_KEY; "D"; NO_KEY; NO_KEY; "1"]%char
          (exec setup (power_on erased_eeprom), false) with
  | Some (m', rest) =>
      timeCounter (tm (fst m')) = false /\
      motor_run (fst m') 0 0 = RELEASE /\
      motor_run (fst m') 0 1 = RELEASE /\
      rest = []
  | None => False
  end.
Proof.
  destruct (example_loops [0; 10] ["A"; "B"; "A"; NO_KEY; "D"; NO_KEY; NO_KEY; "1"]%char
              (exec setup (power_on erased_eeprom), false))
    as [[m' rest] | ] eqn:E.
  - destruct (compiled_loop_never_runs_motor _ _ _ _ _ _ _ _ _ _ _ _ _ _ _ _ E)
      as (Hr & Ht & _).
    split; [ exact Ht | split; [ apply Hr | split; [ apply Hr | ] ] ].
    assert (H : match example_loops [0; 10]
                        ["A"; "B"; "A"; NO_KEY; "D"; NO_KEY; NO_KEY; "1"]%char
                        (exec setup (power_on erased_eeprom), false) with
                | Some (_, r) => r = []
                | None => False
                end) by (vm_compute; reflexivity).
    rewrite E in H. exact H.
  - assert (H : match example_loops [0; 10]
                        ["A"; "B"; "A"; NO_KEY; "D"; NO_KEY; NO_KEY; "1"]%char
                        (exec setup (power_on erased_eeprom), false) with
                | Some _ => True
                | None => False
                end) by (vm_compute; exact I).
    rewrite E in H. exact H.
Defined.
